(** * Beam-FEM: element kernels of [finite_element.py]

    A shallow embedding of the class [FiniteElement] and of its six methods,
    and the properties of the specification stated over it.

    How the Python is read.

    - [problem_type] is a Python [str]; the methods compare it with the
      literals ['Elasticity'] and ['EB_beam'].
    - The numeric arguments are Python scalars ([float], or [int], which the
      float literals of the source convert).  The kernel is written once
      over an interface [Scalar] of the operations the source applies to them
      ([+], [-], [*], unary [-], [/], [**] and the numeric literals), with
      two instances:
        - [float]: binary64, the arithmetic CPython and numpy run.  [*], [+]
          and [-] round to nearest-even and never raise; [/] raises
          [ZeroDivisionError] on a zero divisor; [**] raises [OverflowError]
          when the power of a finite number is not finite.  [**] hands a
          finite base to the C library's [pow], which is not part of the
          source and need not round correctly: the library function is a
          parameter ([Float.pow_with]), and the instance [Scalar_float]
          takes the correctly rounded power for it, which every library
          agrees with where the power is a double.
        - [Q]: the same expressions in exact rational arithmetic, the reading
          under which algebraic identities of the formulas are stated.
    - numpy arrays are lists (1-D) and lists of rows (2-D); a scalar times an
      array multiplies every element; [dot] accumulates the products from
      [0] in index order.  numpy hands the 2-D [dot] to BLAS, whose rounding
      (fused multiply-add, order of the sum) is not fixed by the source: it
      is the parameter [array_dot] of the class [Blas], with the index-order
      sum as its reference instance.
    - [np.zeros((2,16), dtype=np.int)] is a table of C [long] cells (numpy
      before 1.24, LP64): storing a Python [int] outside [-2^63, 2^63) raises
      [OverflowError].
    - A sequence subscript [fe[node]] follows Python: a negative index counts
      from the end, an index outside the sequence raises [IndexError].
    - The keyword defaults [None] of the methods are not modelled: a call
      supplies a number for every parameter. *)

From Stdlib Require Import ZArith QArith Qpower Qfield List String Bool Lia.
From Stdlib Require Import Floats.PrimFloat Floats.SpecFloat Floats.FloatOps.
From Stdlib Require Import Floats.FloatAxioms.
Import ListNotations.

Set Warnings "-inexact-float".

Local Open Scope Z_scope.

(** ** Exceptions and results *)

(** The exceptions a call can end with.  [InvalidElementType] is the
    source's [Exception('Invalid choice of element type')]; the others are
    raised by the Python runtime and by numpy. *)
Inductive error : Type :=
| InvalidElementType
| ZeroDivisionError
| OverflowError
| IndexError
| ValueError.

(** An exception of the runtime, as opposed to the one the source raises. *)
Definition runtime_error (e : error) : Prop := e <> InvalidElementType.

Inductive result (A : Type) : Type :=
| Ok (a : A)
| Err (e : error).

Arguments Ok {A} a.
Arguments Err {A} e.

Definition bind {A B : Type} (c : result A) (k : A -> result B) : result B :=
  match c with
  | Ok a => k a
  | Err e => Err e
  end.

Declare Scope result_scope.
Delimit Scope result_scope with result.
Notation "x <- c ;; k" := (bind c (fun x => k))
  (at level 61, c at next level, right associativity) : result_scope.
Local Open Scope result_scope.

(** Evaluates the elements of a list display from left to right. *)
Fixpoint sequence {A : Type} (cs : list (result A)) : result (list A) :=
  match cs with
  | [] => Ok []
  | c :: cs' => x <- c ;; xs <- sequence cs' ;; Ok (x :: xs)
  end.

(** [for x in xs: body], the loop state passed along. *)
Fixpoint for_in {S : Type} (xs : list Z) (body : Z -> S -> result S) (s : S)
  : result S :=
  match xs with
  | [] => Ok s
  | x :: xs' => s' <- body x s ;; for_in xs' body s'
  end.

(** [range(n)]. *)
Definition range (n : nat) : list Z := map Z.of_nat (seq 0 n).

(** ** Scalars *)

Class Scalar (T : Type) : Type := {
  lit : Z -> T;                       (* a literal of integral value: [12], [6.] *)
  half : T;                           (* the literal [0.5] *)
  add : T -> T -> T;
  sub : T -> T -> T;
  mul : T -> T -> T;
  neg : T -> T;
  truediv : T -> T -> result T;       (* [x / y] *)
  pow : T -> positive -> result T     (* [x ** n], [n] a literal *)
}.

Declare Scope num_scope.
Delimit Scope num_scope with num.
Infix "+" := add : num_scope.
Infix "-" := sub : num_scope.
Infix "*" := mul : num_scope.
Notation "- x" := (neg x) : num_scope.

(** *** binary64 *)

Module Float.

(** A literal of integral value, converted exactly (rounded beyond 2^53). *)
Definition of_Z (z : Z) : float :=
  SF2Prim (binary_normalize prec emax z 0 false).

(** Python's [x / y] on floats. *)
Definition truediv (x y : float) : result float :=
  if (y =? 0)%float then Err ZeroDivisionError else Ok (x / y)%float.

(** The sign of [x ** n] for a negative [x]. *)
Definition pow_sign (s : bool) (n : positive) : bool :=
  match n with
  | xO _ => false
  | _ => s
  end.

(** The power [x ** n] of a finite [x], rounded once: a correctly rounded
    C library. *)
Definition libm_rounded (x : float) (n : positive) : float :=
  match Prim2SF x with
  | S754_finite s m e =>
      SF2Prim (binary_round prec emax (pow_sign s n) (Pos.pow m n) (e * Zpos n))
  | _ => x
  end.

(** Python's [x ** n] on a float, [n] a positive literal, over the C
    library's [pow]: CPython answers for NaN, zero, infinity and [+-1] itself,
    calls [libm] on the absolute value of any other base, restores the sign
    and raises [OverflowError] when the result is infinite. *)
Definition pow_with (libm : float -> positive -> float) (x : float)
    (n : positive) : result float :=
  match Prim2SF x with
  | S754_nan => Ok nan
  | S754_zero s => Ok (SF2Prim (S754_zero (pow_sign s n)))
  | S754_infinity s => Ok (SF2Prim (S754_infinity (pow_sign s n)))
  | S754_finite s _ _ =>
      if (abs x =? 1)%float then Ok (if pow_sign s n then -1 else 1)%float
      else
        let r := libm (abs x) n in
        if is_infinity r then Err OverflowError
        else Ok (if pow_sign s n then - r else r)%float
  end.

(** [x ** n] with the correctly rounded library. *)
Definition pow (x : float) (n : positive) : result float :=
  pow_with libm_rounded x n.

End Float.

#[export] Instance Scalar_float : Scalar float := {
  lit := Float.of_Z;
  half := 0.5%float;
  add := PrimFloat.add;
  sub := PrimFloat.sub;
  mul := PrimFloat.mul;
  neg := PrimFloat.opp;
  truediv := Float.truediv;
  pow := Float.pow
}.

(** binary64 over any C library: the arithmetic of [Scalar_float] with
    [libm] for the power of a finite base. *)
Definition float_arith (libm : float -> positive -> float) : Scalar float := {|
  lit := Float.of_Z;
  half := 0.5%float;
  add := PrimFloat.add;
  sub := PrimFloat.sub;
  mul := PrimFloat.mul;
  neg := PrimFloat.opp;
  truediv := Float.truediv;
  pow := Float.pow_with libm
|}.

(** *** Exact rationals *)

Module Exact.

Definition truediv (x y : Q) : result Q :=
  if Qeq_bool y 0 then Err ZeroDivisionError else Ok (x / y)%Q.

Definition pow (x : Q) (n : positive) : result Q :=
  Ok (Qpower_positive x n).

End Exact.

#[export] Instance Scalar_Q : Scalar Q := {
  lit := inject_Z;
  half := (1 # 2)%Q;
  add := Qplus;
  sub := Qminus;
  mul := Qmult;
  neg := Qopp;
  truediv := Exact.truediv;
  pow := Exact.pow
}.

(** ** numpy arrays *)

Inductive ndarray (T : Type) : Type :=
| Arr1 (v : list T)                   (* shape (n,) *)
| Arr2 (m : list (list T)).           (* shape (r, c), a list of rows *)

Arguments Arr1 {T} v.
Arguments Arr2 {T} m.

Section Arrays.
Context {T : Type} `{Scalar T}.
Local Open Scope num_scope.

(** [k * v] for a scalar [k] and a 1-D array [v]. *)
Definition scale (k : T) (v : list T) : list T := map (mul k) v.

(** [k * m] for a scalar [k] and a 2-D array [m]. *)
Definition scale2 (k : T) (m : list (list T)) : list (list T) :=
  map (scale k) m.

(** The inner product of two rows of equal length. *)
Definition inner (u v : list T) : T :=
  fold_left (fun acc p => acc + fst p * snd p) (combine u v) (lit 0).

(** Column [j] of a 2-D array. *)
Definition column (j : nat) (m : list (list T)) : list T :=
  map (fun row => nth j row (lit 0)) m.

(** [a.dot(b)] for 2-D arrays of matching shapes. *)
Definition matmul (a b : list (list T)) : list (list T) :=
  map (fun row =>
         map (fun j => inner row (column j b))
             (seq 0 (List.length (hd [] b))))
      a.

(** [u.dot(v)] for 1-D arrays: the shapes must agree. *)
Definition dot (u v : list T) : result T :=
  if Nat.eqb (List.length u) (List.length v) then Ok (inner u v)
  else Err ValueError.

End Arrays.

(** [a.dot(b)] on 2-D arrays as the platform computes it. *)
Class Blas (T : Type) : Type := {
  array_dot : list (list T) -> list (list T) -> list (list T)
}.

(** The reference: every entry the index-order sum of rounded products. *)
#[export] Instance Blas_reference {T : Type} `{Scalar T} : Blas T := {
  array_dot := matmul
}.

(** A subscript [i] of a sequence of length [n], as Python resolves it: a
    negative index counts from the end. *)
Definition index (n : nat) (i : Z) : result nat :=
  let j := if i <? 0 then i + Z.of_nat n else i in
  if (0 <=? j) && (j <? Z.of_nat n) then Ok (Z.to_nat j) else Err IndexError.

(** [xs[i]]. *)
Definition getitem {A : Type} (xs : list A) (i : Z) : result A :=
  j <- index (List.length xs) i ;;
  match nth_error xs j with
  | Some x => Ok x
  | None => Err IndexError
  end.

(** *** Integer tables *)

Definition long_min : Z := - 2 ^ 63.
Definition long_max : Z := 2 ^ 63 - 1.

Definition fits_long (v : Z) : bool := (long_min <=? v) && (v <=? long_max).

(** [l] with position [i] replaced. *)
Fixpoint update {A : Type} (i : nat) (f : A -> A) (l : list A) : list A :=
  match l, i with
  | [], _ => []
  | x :: l', O => f x :: l'
  | x :: l', S i' => x :: update i' f l'
  end.

(** [np.zeros((r, c), dtype=np.int)]. *)
Definition zeros_int (r c : nat) : list (list Z) := repeat (repeat 0 c) r.

(** [exy[r, c] = v] on a table of C [long]. *)
Definition setitem (exy : list (list Z)) (r c : Z) (v : Z)
  : result (list (list Z)) :=
  i <- index (List.length exy) r ;;
  j <- index (List.length (nth i exy [])) c ;;
  if fits_long v then Ok (update i (update j (fun _ => v)) exy)
  else Err OverflowError.

(** ** The class [FiniteElement] *)

Record FiniteElement : Type := { problem_type : string }.

(** [FiniteElement(problem_type='Elasticity')]. *)
Definition init (tag : option string) : FiniteElement :=
  {| problem_type := match tag with Some t => t | None => "Elasticity" end |}.

(** What [get_dof_index] returns: a Python list or an integer table. *)
Inductive dof_index : Type :=
| DofList (l : list Z)
| DofTable (exy : list (list Z)).

Section Kernel.
Context {T : Type} `{Scalar T} {blas : Blas T}.
Local Open Scope num_scope.
Local Open Scope string_scope.

Definition get_Ke (self : FiniteElement) (Ae Ee le EIe : T)
  : result (ndarray T) :=
  if problem_type self =? "Elasticity" then
    k <- truediv (Ae * Ee) le ;;
    Ok (Arr2 (scale2 k [[lit 1; lit (-1)]; [lit (-1); lit 1]]))
  else if problem_type self =? "EB_beam" then
    c <- pow le 3 ;;
    k <- truediv EIe c ;;
    a <- sequence
           [ Ok (lit 12); Ok (lit 6 * le); Ok (lit (-12)); Ok (lit 6 * le);
             Ok (lit 6 * le); (s <- pow le 2 ;; Ok (lit 4 * s));
             Ok (lit (-6) * le); (s <- pow le 2 ;; Ok (lit 2 * s));
             Ok (lit (-12)); Ok (lit (-6) * le); Ok (lit 12);
             Ok (lit (-6) * le);
             Ok (lit 6 * le); (s <- pow le 2 ;; Ok (lit 2 * s));
             Ok (lit (-6) * le); (s <- pow le 2 ;; Ok (lit 4 * s)) ] ;;
    let ee := scale k a in
    Ok (Arr1 ee)
  else Err InvalidElementType.

Definition get_fe_omega (self : FiniteElement) (le b1 b2 fe : T)
  : result (ndarray T) :=
  if problem_type self =? "Elasticity" then
    h <- truediv le (lit 6) ;;
    Ok (Arr2 (scale2 h (array_dot [[lit 2; lit 1]; [lit 1; lit 2]]
                                  [[b1]; [b2]])))
  else if problem_type self =? "EB_beam" then
    k <- truediv (fe * le) (lit 2) ;;
    a <- sequence
           [ Ok (lit 1); truediv le (lit 6); Ok (lit 1);
             truediv (- le) (lit 6) ] ;;
    let ff := scale k a in
    Ok (Arr1 ff)
  else Err InvalidElementType.

Definition get_dynamic_fe_omega (self : FiniteElement) (le b1 b2 : T)
    (fe : list T) (node : Z) : result (ndarray T) :=
  if problem_type self =? "EB_beam" then
    f <- getitem fe node ;;
    k <- truediv (f * le) (lit 2) ;;
    a <- sequence
           [ Ok (lit 1); truediv le (lit 6); Ok (lit 1);
             truediv (- le) (lit 6) ] ;;
    let ff := scale k a in
    Ok (Arr1 ff)
  else Err InvalidElementType.

Definition get_gauss_quadrature_index (self : FiniteElement) (f a b : T)
  : T :=
  half * (a + b) + half * (b - a) * f.

Definition get_strain_e (self : FiniteElement) (le : T) (de : list T)
  : result T :=
  if problem_type self =? "Elasticity" then
    h <- truediv (lit 1) le ;;
    d <- dot [lit (-1); lit 1] de ;;
    Ok (h * d)
  else Err InvalidElementType.

End Kernel.

Section DofIndex.
Local Open Scope string_scope.

(** The array [ey = np.zeros(16)] of the source is never read and is left
    out. *)
Definition get_dof_index (self : FiniteElement) (e : Z) : result dof_index :=
  if problem_type self =? "Elasticity" then
    Ok (DofList [e; e + 1])
  else if problem_type self =? "EB_beam" then
    let exy := zeros_int 2 16 in
    exy <- for_in (range 4) (fun ii =>
             for_in (range 4) (fun jj exy =>
               setitem exy 0 (ii * 4 + jj) (e * 2 + ii))) exy ;;
    exy <- for_in (range 4) (fun ii =>
             for_in (range 4) (fun jj exy =>
               setitem exy 1 (ii * 4 + jj) (e * 2 + jj))) exy ;;
    Ok (DofTable exy)
  else Err InvalidElementType.

End DofIndex.

(** Equality of arrays of rationals, element by element. *)
Definition vec_eq (u v : list Q) : Prop := Forall2 Qeq u v.
Definition mat_eq (a b : list (list Q)) : Prop := Forall2 vec_eq a b.

(** The two element families of the specification. *)
Definition Elasticity : FiniteElement := init None.
Definition EB_beam : FiniteElement := init (Some "EB_beam"%string).

(** ** Which exceptions the building blocks raise *)

(** The arithmetic of a scalar type raises nothing but [ZeroDivisionError]
    (from [/]) and [OverflowError] (from [**]). *)
Class ScalarErrors (T : Type) `{Scalar T} : Prop := {
  truediv_error : forall x y e, truediv x y = Err e -> e = ZeroDivisionError;
  pow_error : forall x n e, pow x n = Err e -> e = OverflowError
}.

#[export] Instance ScalarErrors_float : ScalarErrors float.
Proof.
  split.
  - intros x y e. cbn. unfold Float.truediv.
    destruct (y =? 0)%float; congruence.
  - intros x n e. cbn. unfold Float.pow, Float.pow_with.
    destruct (Prim2SF x); try congruence.
    destruct (abs x =? 1)%float; [congruence |].
    destruct (is_infinity _); congruence.
Qed.

#[export] Instance ScalarErrors_Q : ScalarErrors Q.
Proof.
  split.
  - intros x y e. cbn. unfold Exact.truediv.
    destruct (Qeq_bool y 0); congruence.
  - intros x n e. cbn. unfold Exact.pow. congruence.
Qed.

(** A kernel is its tag: the theorems below are stated for [Elasticity] and
    [EB_beam], the only kernels with these tags. *)
Lemma kernel_of_tag (self : FiniteElement) :
  self = init (Some (problem_type self)).
Proof. destruct self as [tag]. reflexivity. Qed.

Lemma bind_Err {A B : Type} (c : result A) (k : A -> result B) (e : error) :
  bind c k = Err e ->
  c = Err e \/ exists a, c = Ok a /\ k a = Err e.
Proof.
  destruct c as [a | e']; cbn; intros E.
  - right. exists a. split; [reflexivity | exact E].
  - left. congruence.
Qed.

Lemma sequence_error {A : Type} (P : error -> Prop) (cs : list (result A)) :
  Forall (fun c => forall e, c = Err e -> P e) cs ->
  forall e, sequence cs = Err e -> P e.
Proof.
  induction 1 as [| c cs Hc _ IH]; cbn; intros e E; [discriminate |].
  destruct c as [x | e']; cbn in E.
  - destruct (sequence cs) as [xs | e'']; cbn in E; [discriminate |].
    apply IH. exact E.
  - apply Hc. congruence.
Qed.

Lemma for_in_error {S : Type} (P : error -> Prop) (body : Z -> S -> result S) :
  (forall x s e, body x s = Err e -> P e) ->
  forall xs s e, for_in xs body s = Err e -> P e.
Proof.
  intros Hbody xs. induction xs as [| x xs IH]; cbn; intros s e E.
  - discriminate.
  - destruct (body x s) as [s' | e'] eqn:Eb; cbn in E.
    + apply (IH s' e E).
    + apply (Hbody x s). congruence.
Qed.

Lemma index_error (n : nat) (i : Z) (e : error) :
  index n i = Err e -> e = IndexError.
Proof.
  unfold index. destruct (_ && _); congruence.
Qed.

Lemma getitem_error {A : Type} (xs : list A) (i : Z) (e : error) :
  getitem xs i = Err e -> e = IndexError.
Proof.
  unfold getitem. intros E.
  apply bind_Err in E as [E | (j & _ & E)].
  - apply (index_error _ _ _ E).
  - destruct (nth_error xs j); congruence.
Qed.

Lemma setitem_error (exy : list (list Z)) (r c v : Z) (e : error) :
  setitem exy r c v = Err e -> e = IndexError \/ e = OverflowError.
Proof.
  unfold setitem. intros E.
  apply bind_Err in E as [E | (i & _ & E)].
  - left. apply (index_error _ _ _ E).
  - apply bind_Err in E as [E | (j & _ & E)].
    + left. apply (index_error _ _ _ E).
    + destruct (fits_long v); [discriminate |].
      right. congruence.
Qed.

Lemma dot_error {T : Type} `{Scalar T} (u v : list T) (e : error) :
  dot u v = Err e -> e = ValueError.
Proof.
  unfold dot. destruct (Nat.eqb _ _); congruence.
Qed.

(** ** Error handling (C4) *)

Section TagDispatch.
Context {T : Type} `{ScalarErrors T}.
Local Open Scope string_scope.

Lemma truediv_runtime (x y : T) (e : error) :
  truediv x y = Err e -> runtime_error e.
Proof. intros E. apply truediv_error in E. subst e. discriminate. Qed.

Lemma pow_runtime (x : T) (n : positive) (e : error) :
  pow x n = Err e -> runtime_error e.
Proof. intros E. apply pow_error in E. subst e. discriminate. Qed.

Lemma getitem_runtime (xs : list T) (i : Z) (e : error) :
  getitem xs i = Err e -> runtime_error e.
Proof. intros E. apply getitem_error in E. subst e. discriminate. Qed.

Lemma dot_runtime (u v : list T) (e : error) :
  dot u v = Err e -> runtime_error e.
Proof. intros E. apply dot_error in E. subst e. discriminate. Qed.

Lemma Ok_runtime {A : Type} (a : A) (e : error) :
  Ok a = Err e -> runtime_error e.
Proof. discriminate. Qed.

Lemma bind_runtime {A B : Type} (c : result A) (k : A -> result B) :
  (forall e, c = Err e -> runtime_error e) ->
  (forall a e, k a = Err e -> runtime_error e) ->
  forall e, bind c k = Err e -> runtime_error e.
Proof.
  intros Hc Hk e E. apply bind_Err in E as [E | (a & _ & E)].
  - apply (Hc e E).
  - apply (Hk a e E).
Qed.

Lemma sequence_runtime {A : Type} (cs : list (result A)) :
  Forall (fun c => forall e, c = Err e -> runtime_error e) cs ->
  forall e, sequence cs = Err e -> runtime_error e.
Proof. apply sequence_error. Qed.

End TagDispatch.

Lemma setitem_runtime (exy : list (list Z)) (r c v : Z) (e : error) :
  setitem exy r c v = Err e -> runtime_error e.
Proof.
  intros E. apply setitem_error in E as [-> | ->]; discriminate.
Qed.

Lemma runtime_not_invalid {A : Type} (c : result A) :
  (forall e, c = Err e -> runtime_error e) -> c <> Err InvalidElementType.
Proof. intros Hc E. now apply (Hc _ E). Qed.

(** Splits a goal about a computation into its fallible steps. *)
Ltac runtime_steps :=
  repeat first
    [ apply Ok_runtime
    | apply truediv_runtime
    | apply pow_runtime
    | apply getitem_runtime
    | apply dot_runtime
    | apply setitem_runtime
    | apply bind_runtime; [| intros ?]; cbv beta
    | apply sequence_runtime; repeat constructor
    | apply (for_in_error runtime_error); intros ? ?; cbv beta ].

(** Case analysis on the comparisons of [problem_type] with the two tags. *)
Ltac tag_cases self :=
  destruct (String.eqb_spec (problem_type self) "Elasticity");
  [| destruct (String.eqb_spec (problem_type self) "EB_beam")].

Ltac supported_tag :=
  split;
  [ intros E; exfalso; revert E; apply runtime_not_invalid; runtime_steps
  | try (intros [? ?]); intros; congruence ].

Section SupportedTags.
Context {T : Type} `{ScalarErrors T}.
Local Open Scope string_scope.

Lemma get_Ke_invalid (self : FiniteElement) (Ae Ee le EIe : T) :
  get_Ke self Ae Ee le EIe = Err InvalidElementType <->
  problem_type self <> "Elasticity" /\ problem_type self <> "EB_beam".
Proof.
  unfold get_Ke. tag_cases self; [supported_tag | supported_tag |].
  split; [intros _; split; assumption | reflexivity].
Qed.

Lemma get_fe_omega_invalid (self : FiniteElement) (le b1 b2 fe : T) :
  get_fe_omega self le b1 b2 fe = Err InvalidElementType <->
  problem_type self <> "Elasticity" /\ problem_type self <> "EB_beam".
Proof.
  unfold get_fe_omega. tag_cases self; [supported_tag | supported_tag |].
  split; [intros _; split; assumption | reflexivity].
Qed.

Lemma get_dynamic_fe_omega_invalid (self : FiniteElement) (le b1 b2 : T)
    (fe : list T) (node : Z) :
  get_dynamic_fe_omega self le b1 b2 fe node = Err InvalidElementType <->
  problem_type self <> "EB_beam".
Proof.
  unfold get_dynamic_fe_omega.
  destruct (String.eqb_spec (problem_type self) "EB_beam");
    [supported_tag |].
  split; [intros _; assumption | reflexivity].
Qed.

Lemma get_strain_e_invalid (self : FiniteElement) (le : T) (de : list T) :
  get_strain_e self le de = Err InvalidElementType <->
  problem_type self <> "Elasticity".
Proof.
  unfold get_strain_e.
  destruct (String.eqb_spec (problem_type self) "Elasticity");
    [supported_tag |].
  split; [intros _; assumption | reflexivity].
Qed.

End SupportedTags.

Lemma get_dof_index_invalid (self : FiniteElement) (e : Z) :
  get_dof_index self e = Err InvalidElementType <->
  problem_type self <> "Elasticity"%string /\
  problem_type self <> "EB_beam"%string.
Proof.
  unfold get_dof_index. tag_cases self; [supported_tag | supported_tag |].
  split; [intros _; split; assumption | reflexivity].
Qed.

(** C4, as amended.  Each operation raises [InvalidElementType] exactly when
    the stored [problem_type] is outside the tags it supports, whatever its
    other arguments are (the tag is tested before anything is computed):
    the stiffness, load and DOF-index operations support ['Elasticity'] and
    ['EB_beam'], the dynamic load only ['EB_beam'], the strain only
    ['Elasticity'].  With a supported tag an operation never raises
    [InvalidElementType]; it can still end with an exception of the runtime
    ([ZeroDivisionError], [OverflowError], [IndexError], [ValueError]). *)
Theorem invalid_element_type_iff_unsupported
    (T : Type) `{ScalarErrors T} (self : FiniteElement) :
  let unsupported :=
    problem_type self <> "Elasticity"%string /\
    problem_type self <> "EB_beam"%string in
  (forall Ae Ee le EIe : T,
      get_Ke self Ae Ee le EIe = Err InvalidElementType <-> unsupported) /\
  (forall le b1 b2 fe : T,
      get_fe_omega self le b1 b2 fe = Err InvalidElementType <-> unsupported) /\
  (forall e : Z,
      get_dof_index self e = Err InvalidElementType <-> unsupported) /\
  (forall (le b1 b2 : T) (fe : list T) (node : Z),
      get_dynamic_fe_omega self le b1 b2 fe node = Err InvalidElementType <->
      problem_type self <> "EB_beam"%string) /\
  (forall (le : T) (de : list T),
      get_strain_e self le de = Err InvalidElementType <->
      problem_type self <> "Elasticity"%string).
Proof.
  cbv zeta. repeat apply conj; intros.
  - apply get_Ke_invalid.
  - apply get_fe_omega_invalid.
  - apply get_dof_index_invalid.
  - apply get_dynamic_fe_omega_invalid.
  - apply get_strain_e_invalid.
Qed.

(** A kernel built with a tag of neither family rejects every operation. *)
Lemma invalid_element_type_witness :
  let self := init (Some "Timoshenko"%string) in
  get_Ke self 2%float 3%float 0%float 1%float = Err InvalidElementType /\
  get_dynamic_fe_omega self 1%float 0%float 0%float [] 7 =
    Err InvalidElementType /\
  get_dof_index self (2 ^ 62) = Err InvalidElementType.
Proof.
  cbv zeta.
  pose proof (invalid_element_type_iff_unsupported float
                (init (Some "Timoshenko"%string)))
    as (HK & _ & HD & HY & _).
  cbv zeta in HK, HD, HY.
  split; [| split].
  - apply HK. split; discriminate.
  - apply HY. discriminate.
  - apply HD. split; discriminate.
Defined.

(** C4 as stated fails: with the supported tag ['EB_beam'] the dynamic load
    on an empty load sequence ends with [IndexError]. *)
Lemma dynamic_load_index_error :
  get_dynamic_fe_omega EB_beam 1%float 0%float 0%float [] 0 = Err IndexError.
Proof. reflexivity. Qed.

(** ** DOF index mapping (C1) *)

(** Runs the two loop nests of [get_dof_index] once the overflow checks of
    the four stored values are known. *)
Ltac run_dof_loops F0 F1 F2 F3 :=
  lazy -[fits_long];
  repeat (rewrite ?F0, ?F1, ?F2, ?F3; lazy -[fits_long]).

Lemma get_dof_index_beam_fits (e : Z) :
  fits_long (e * 2 + 0) = true -> fits_long (e * 2 + 1) = true ->
  fits_long (e * 2 + 2) = true -> fits_long (e * 2 + 3) = true ->
  get_dof_index EB_beam e =
  Ok (DofTable
        [ map (Z.add (e * 2)) [0; 0; 0; 0; 1; 1; 1; 1; 2; 2; 2; 2; 3; 3; 3; 3];
          map (Z.add (e * 2)) [0; 1; 2; 3; 0; 1; 2; 3; 0; 1; 2; 3; 0; 1; 2; 3] ]).
Proof.
  intros F0 F1 F2 F3. unfold get_dof_index.
  set (f := Z.add (e * 2)) in *. clearbody f.
  run_dof_loops F0 F1 F2 F3. reflexivity.
Qed.

Lemma get_dof_index_beam_overflow (e : Z) :
  fits_long (e * 2 + 0) && fits_long (e * 2 + 1) &&
  fits_long (e * 2 + 2) && fits_long (e * 2 + 3) = false ->
  get_dof_index EB_beam e = Err OverflowError.
Proof.
  unfold get_dof_index.
  set (f := Z.add (e * 2)) in *. clearbody f.
  destruct (fits_long (f 0)) eqn:F0; destruct (fits_long (f 1)) eqn:F1;
    destruct (fits_long (f 2)) eqn:F2; destruct (fits_long (f 3)) eqn:F3;
    cbn [andb]; intros E; try discriminate E;
    run_dof_loops F0 F1 F2 F3; reflexivity.
Qed.

Lemma fits_long_spec (v : Z) :
  fits_long v = true <-> - 2 ^ 63 <= v <= 2 ^ 63 - 1.
Proof.
  unfold fits_long, long_min, long_max.
  rewrite andb_true_iff, !Z.leb_le. reflexivity.
Qed.

(** C1, as amended.  For every element index [e] the DOF-index operation
    returns the list [[e, e+1]] under ['Elasticity'].  Under ['EB_beam'], for
    every [e] with [-2^62 <= e <= 2^62 - 2] (so that [2e .. 2e+3] fit the
    table's 64-bit cells) it returns a 2 x 16 integer table whose row 0 holds
    [2e+ii] and whose row 1 holds [2e+jj] at position [ii*4+jj], for all
    [ii, jj] in [0,4); for any other [e] the store overflows and the call
    ends with [OverflowError].  For [e = 0] row 0 is
    [0,0,0,0,1,1,1,1,2,2,2,2,3,3,3,3] and row 1 is [0,1,2,3] four times. *)
Theorem dof_index_mapping :
  (forall e : Z, get_dof_index Elasticity e = Ok (DofList [e; e + 1])) /\
  (forall e : Z,
      - 2 ^ 62 <= e <= 2 ^ 62 - 2 ->
      exists row0 row1 : list Z,
        get_dof_index EB_beam e = Ok (DofTable [row0; row1]) /\
        List.length row0 = 16%nat /\ List.length row1 = 16%nat /\
        forall ii jj : Z,
          0 <= ii < 4 -> 0 <= jj < 4 ->
          nth (Z.to_nat (ii * 4 + jj)) row0 0 = 2 * e + ii /\
          nth (Z.to_nat (ii * 4 + jj)) row1 0 = 2 * e + jj) /\
  (forall e : Z,
      ~ (- 2 ^ 62 <= e <= 2 ^ 62 - 2) ->
      get_dof_index EB_beam e = Err OverflowError) /\
  get_dof_index EB_beam 0 =
  Ok (DofTable [ [0; 0; 0; 0; 1; 1; 1; 1; 2; 2; 2; 2; 3; 3; 3; 3];
                 [0; 1; 2; 3; 0; 1; 2; 3; 0; 1; 2; 3; 0; 1; 2; 3] ]).
Proof.
  split; [reflexivity |]. split; [| split; [| reflexivity]].
  - intros e He.
    eexists. eexists. split.
    + apply get_dof_index_beam_fits; apply fits_long_spec; lia.
    + split; [reflexivity |]. split; [reflexivity |].
      intros ii jj Hii Hjj.
      assert (ii = 0 \/ ii = 1 \/ ii = 2 \/ ii = 3) as Cii by lia.
      assert (jj = 0 \/ jj = 1 \/ jj = 2 \/ jj = 3) as Cjj by lia.
      destruct Cii as [-> | [-> | [-> | ->]]];
        destruct Cjj as [-> | [-> | [-> | ->]]];
        rewrite (Z.mul_comm 2 e); generalize (e * 2); intros b;
        simpl; split; reflexivity.
  - intros e He. apply get_dof_index_beam_overflow.
    apply not_true_is_false. rewrite !andb_true_iff, !fits_long_spec.
    lia.
Qed.

(** Element 3 of a mesh: the bar couples DOFs 3 and 4, the beam DOFs 6..9. *)
Lemma dof_index_mapping_witness :
  get_dof_index Elasticity 3 = Ok (DofList [3; 4]) /\
  exists row0 row1 : list Z,
    get_dof_index EB_beam 3 = Ok (DofTable [row0; row1]) /\
    List.length row0 = 16%nat /\ List.length row1 = 16%nat /\
    forall ii jj : Z,
      0 <= ii < 4 -> 0 <= jj < 4 ->
      nth (Z.to_nat (ii * 4 + jj)) row0 0 = 2 * 3 + ii /\
      nth (Z.to_nat (ii * 4 + jj)) row1 0 = 2 * 3 + jj.
Proof.
  destruct dof_index_mapping as (Hbar & Hbeam & _).
  split; [apply (Hbar 3) |].
  apply (Hbeam 3). lia.
Defined.

(** C1 as stated fails: for element index 2^62 the value [2e = 2^63] does
    not fit a cell of the table. *)
Lemma dof_index_overflow :
  get_dof_index EB_beam (2 ^ 62) = Err OverflowError.
Proof. reflexivity. Qed.

(** ** Division in the two arithmetics *)

Lemma float_truediv_nonzero (x y : float) :
  (y =? 0)%float = false -> truediv x y = Ok (x / y)%float.
Proof. intros E. cbn. unfold Float.truediv. now rewrite E. Qed.

Lemma float_truediv_zero (x y : float) :
  (y =? 0)%float = true -> truediv x y = Err ZeroDivisionError.
Proof. intros E. cbn. unfold Float.truediv. now rewrite E. Qed.

Lemma exact_truediv_nonzero (x y : Q) :
  ~ y == 0 -> truediv x y = Ok (x / y)%Q.
Proof.
  intros N. cbn. unfold Exact.truediv.
  destruct (Qeq_bool y 0) eqn:E; [| reflexivity].
  apply Qeq_bool_eq in E. contradiction.
Qed.

Lemma exact_truediv_zero (x y : Q) :
  y == 0 -> truediv x y = Err ZeroDivisionError.
Proof.
  intros E. cbn. unfold Exact.truediv.
  apply Qeq_eq_bool in E. now rewrite E.
Qed.

(** ** Multiplication by [1] and [-1] in binary64 *)

(** The literals [1.] and [-1.] have the mantissa [2^52] and the exponent
    [-52]; multiplying a mantissa by [2^52] appends 52 zero bits, which the
    rounding then shifts out without loss. *)
Lemma digits2_pos_shift52 (m : positive) :
  Zpos (digits2_pos (4503599627370496 * m)) = Zpos (digits2_pos m) + 52.
Proof. cbn [Pos.mul digits2_pos]. lia. Qed.

Lemma shr_shift52 (m : positive) :
  iter_pos shr_1 52
    (shr_record_of_loc (Zpos (4503599627370496 * m)) loc_Exact) =
  Build_shr_record (Zpos m) false false.
Proof. reflexivity. Qed.

Lemma SFmul_unit (b : bool) (y : spec_float) :
  SpecFloat.valid_binary prec emax y = true ->
  SFmul prec emax y (S754_finite b 4503599627370496 (-52)) =
  if b then SFopp y else y.
Proof.
  destruct y as [s | s | | s m e]; cbn [SpecFloat.valid_binary SFmul SFopp];
    intros V.
  - destruct s, b; reflexivity.
  - destruct s, b; reflexivity.
  - destruct b; reflexivity.
  - unfold bounded, canonical_mantissa in V.
    apply andb_true_iff in V as [C B].
    apply Z.eqb_eq in C.
    rewrite (Pos.mul_comm m).
    unfold binary_round_aux, shr_fexp.
    cbn [Zdigits2]. rewrite digits2_pos_shift52.
    replace (Zpos (digits2_pos m) + 52 + (e + -52))
      with (Zpos (digits2_pos m) + e) by lia.
    rewrite C.
    replace (e - (e + -52)) with 52 by lia.
    unfold shr at 1. rewrite shr_shift52.
    cbn [shr_m loc_of_shr_record round_nearest_even Zdigits2].
    replace (e + -52 + 52) with e by lia.
    rewrite C, Z.sub_diag.
    cbn [shr shr_record_of_loc shr_m].
    rewrite B.
    destruct s, b; reflexivity.
Qed.

Lemma float_mul_one (x : float) : (x * 1)%float = x.
Proof.
  rewrite <- (SF2Prim_Prim2SF (x * 1)), mul_spec.
  change (Prim2SF 1) with (S754_finite false 4503599627370496 (-52)).
  unfold SF64mul.
  rewrite (SFmul_unit false _ (Prim2SF_valid x)).
  apply SF2Prim_Prim2SF.
Qed.

Lemma float_mul_minus_one (x : float) : (x * -1)%float = (- x)%float.
Proof.
  rewrite <- (SF2Prim_Prim2SF (x * -1)), mul_spec.
  change (Prim2SF (-1)) with (S754_finite true 4503599627370496 (-52)).
  unfold SF64mul.
  rewrite (SFmul_unit true _ (Prim2SF_valid x)).
  rewrite <- opp_spec. apply SF2Prim_Prim2SF.
Qed.

Lemma SFmul_comm (x y : spec_float) :
  SFmul prec emax x y = SFmul prec emax y x.
Proof.
  destruct x as [sx | sx | | sx mx ex], y as [sy | sy | | sy my ey];
    cbn [SFmul]; rewrite ?(xorb_comm sx sy); try reflexivity.
  rewrite (Pos.mul_comm mx my), (Z.add_comm ex ey). reflexivity.
Qed.

Lemma float_mul_comm (x y : float) : (x * y)%float = (y * x)%float.
Proof.
  apply Prim2SF_inj. rewrite !mul_spec. apply SFmul_comm.
Qed.

Lemma float_one_mul (x : float) : (1 * x)%float = x.
Proof. rewrite float_mul_comm. apply float_mul_one. Qed.

Lemma float_minus_one_mul (x : float) : (-1 * x)%float = (- x)%float.
Proof. rewrite float_mul_comm. apply float_mul_minus_one. Qed.

(** ** Bar stiffness (C5) *)

(** C5, as amended.  Under ['Elasticity'], for every [A], [E] and every
    [l <> 0], the stiffness operation returns the 2 x 2 matrix
    [(A*E/l) * [[1,-1],[-1,1]]] (in doubles, each product rounded; in exact
    arithmetic its entries are [A*E/l] and [-(A*E/l)]); with [A=2, E=3, l=4]
    it returns [[1.5,-1.5],[-1.5,1.5]].  For [l = 0] the division raises
    [ZeroDivisionError]. *)
Theorem bar_stiffness :
  (forall Ae Ee le EIe : float,
      (le =? 0)%float = false ->
      get_Ke Elasticity Ae Ee le EIe =
      Ok (Arr2 (scale2 (Ae * Ee / le)%float [[1; -1]; [-1; 1]]%float)) /\
      get_Ke Elasticity Ae Ee le EIe =
      Ok (Arr2 [ [Ae * Ee / le; - (Ae * Ee / le)];
                 [- (Ae * Ee / le); Ae * Ee / le] ]%float)) /\
  (forall Ae Ee le EIe : float,
      (le =? 0)%float = true ->
      get_Ke Elasticity Ae Ee le EIe = Err ZeroDivisionError) /\
  (forall Ae Ee le EIe : Q,
      ~ le == 0 ->
      exists m : list (list Q),
        get_Ke Elasticity Ae Ee le EIe = Ok (Arr2 m) /\
        mat_eq m [ [Ae * Ee / le; - (Ae * Ee / le)];
                   [- (Ae * Ee / le); Ae * Ee / le] ]%Q) /\
  (forall EIe : float,
      get_Ke Elasticity 2%float 3%float 4%float EIe =
      Ok (Arr2 [[1.5; -1.5]; [-1.5; 1.5]]%float)).
Proof.
  repeat apply conj.
  - intros Ae Ee le EIe Hle. unfold get_Ke. cbn [Elasticity init problem_type].
    change ("Elasticity" =? "Elasticity")%string with true. cbv iota.
    rewrite (float_truediv_nonzero _ _ Hle). split; [reflexivity |].
    cbn [bind scale2 scale map mul Scalar_float].
    change (lit 1) with 1%float. change (lit (-1)) with (-1)%float.
    rewrite float_mul_one, float_mul_minus_one. reflexivity.
  - intros Ae Ee le EIe Hle. unfold get_Ke. cbn [Elasticity init problem_type].
    change ("Elasticity" =? "Elasticity")%string with true. cbv iota.
    rewrite (float_truediv_zero _ _ Hle). reflexivity.
  - intros Ae Ee le EIe Hle. unfold get_Ke. cbn [Elasticity init problem_type].
    change ("Elasticity" =? "Elasticity")%string with true. cbv iota.
    rewrite (exact_truediv_nonzero _ _ Hle). cbn [bind].
    eexists. split; [reflexivity |].
    repeat constructor; cbn; field; exact Hle.
  - intros EIe. reflexivity.
Qed.

(** A bar with [A = 2], [E = 3] and [l = 4]. *)
Lemma bar_stiffness_witness :
  (get_Ke Elasticity 2%float 3%float 4%float 0%float =
   Ok (Arr2 (scale2 (2 * 3 / 4)%float [[1; -1]; [-1; 1]]%float)) /\
   get_Ke Elasticity 2%float 3%float 4%float 0%float =
   Ok (Arr2 [ [2 * 3 / 4; - (2 * 3 / 4)];
              [- (2 * 3 / 4); 2 * 3 / 4] ]%float)) /\
  exists m : list (list Q),
    get_Ke Elasticity 2%Q 3%Q 4%Q 0%Q = Ok (Arr2 m) /\
    mat_eq m [ [2 * 3 / 4; - (2 * 3 / 4)]; [- (2 * 3 / 4); 2 * 3 / 4] ]%Q.
Proof.
  destruct bar_stiffness as (Hfloat & _ & Hexact & _).
  split.
  - apply Hfloat. reflexivity.
  - apply Hexact. discriminate.
Defined.

(** C5 as stated fails at [l = 0]: the division [A*E/l] raises. *)
Lemma bar_stiffness_zero_length :
  get_Ke Elasticity 2%float 3%float 0%float 0%float = Err ZeroDivisionError.
Proof. reflexivity. Qed.

(** ** Beam stiffness (C3) *)

Lemma Qpower_positive_nonzero (x : Q) (n : positive) :
  ~ x == 0 -> ~ Qpower_positive x n == 0.
Proof. apply Qpower_not_0_positive. Qed.

(** The beam branch of [get_Ke] once its three powers and its division are
    known, in any arithmetic. *)
Lemma get_Ke_beam_steps {T : Type} `{Scalar T} (Ae Ee le EIe c k s : T) :
  pow le 3 = Ok c -> truediv EIe c = Ok k -> pow le 2 = Ok s ->
  get_Ke EB_beam Ae Ee le EIe =
  Ok (Arr1 (scale k
              [ lit 12; lit 6 * le; lit (-12); lit 6 * le;
                lit 6 * le; lit 4 * s; lit (-6) * le; lit 2 * s;
                lit (-12); lit (-6) * le; lit 12; lit (-6) * le;
                lit 6 * le; lit 2 * s; lit (-6) * le; lit 4 * s ]%num)).
Proof.
  intros Hc Hk Hs. unfold get_Ke. cbn [EB_beam init problem_type].
  change ("EB_beam" =? "Elasticity")%string with false.
  change ("EB_beam" =? "EB_beam")%string with true. cbv iota.
  rewrite Hc. cbn [bind]. rewrite Hk. cbn [bind sequence].
  rewrite Hs. reflexivity.
Qed.

(** [**] on a positive finite base other than 1 is the C library's [pow],
    with [OverflowError] for an infinite result. *)
Lemma pow_with_positive (libm : float -> positive -> float) (x : float)
    (n : positive) :
  (0 <? x)%float = true -> (x <? infinity)%float = true ->
  (x =? 1)%float = false ->
  Float.pow_with libm x n =
  if is_infinity (libm x n) then Err OverflowError else Ok (libm x n).
Proof.
  intros Hpos Hfin Hone.
  rewrite ltb_spec in Hpos, Hfin.
  change (Prim2SF 0) with (S754_zero false) in Hpos.
  change (Prim2SF infinity) with (S754_infinity false) in Hfin.
  assert (abs x = x) as Habs.
  { apply Prim2SF_inj. rewrite abs_spec.
    destruct (Prim2SF x) as [s | s | | s m e]; try discriminate Hpos;
      destruct s; try discriminate Hpos; try discriminate Hfin; reflexivity. }
  unfold Float.pow_with. rewrite Habs, Hone.
  destruct (Prim2SF x) as [s | s | | s m e]; try discriminate Hpos.
  - destruct s; [discriminate Hpos | discriminate Hfin].
  - destruct s; [discriminate Hpos |].
    replace (Float.pow_sign false n) with false by (destruct n; reflexivity).
    reflexivity.
Qed.

(** C3, as amended.  Under ['EB_beam'], for every [EI] and every [l] whose
    powers [l**3] and [l**2] are computed without overflow and whose cube is
    not zero, the stiffness operation returns exactly the flattened 16-element
    row-major sequence [(EI/c) * [12, 6l, -12, 6l, 6l, 4s, -6l, 2s, -12, -6l,
    12, -6l, 6l, 2s, -6l, 4s]], in that order, where [c] and [s] are the
    doubles that [l**3] and [l**2] evaluate to: for a positive finite length
    other than 1 they are what the C library's [pow] returns for the
    exponents 3 and 2, whatever library that is (in exact arithmetic:
    [c = l^3], [s = l^2], for every [l <> 0]).  When [l**3] is zero, as for
    [l = 0], the division raises [ZeroDivisionError]. *)
Theorem beam_stiffness :
  (forall (libm : float -> positive -> float) (Ae Ee le EIe : float),
      (0 <? le)%float = true -> (le <? infinity)%float = true ->
      (le =? 1)%float = false ->
      let c := libm le 3%positive in
      let s := libm le 2%positive in
      is_infinity c = false -> is_infinity s = false ->
      (c =? 0)%float = false ->
      let k := (EIe / c)%float in
      @get_Ke float (float_arith libm) EB_beam Ae Ee le EIe =
      Ok (Arr1 [ k * 12; k * (6 * le); k * -12; k * (6 * le);
                 k * (6 * le); k * (4 * s); k * (-6 * le); k * (2 * s);
                 k * -12; k * (-6 * le); k * 12; k * (-6 * le);
                 k * (6 * le); k * (2 * s); k * (-6 * le);
                 k * (4 * s) ]%float)) /\
  (forall (libm : float -> positive -> float) (Ae Ee le EIe c s : float),
      Float.pow_with libm le 3 = Ok c -> (c =? 0)%float = false ->
      Float.pow_with libm le 2 = Ok s ->
      let k := (EIe / c)%float in
      @get_Ke float (float_arith libm) EB_beam Ae Ee le EIe =
      Ok (Arr1 [ k * 12; k * (6 * le); k * -12; k * (6 * le);
                 k * (6 * le); k * (4 * s); k * (-6 * le); k * (2 * s);
                 k * -12; k * (-6 * le); k * 12; k * (-6 * le);
                 k * (6 * le); k * (2 * s); k * (-6 * le);
                 k * (4 * s) ]%float)) /\
  (forall (libm : float -> positive -> float) (Ae Ee le EIe c : float),
      Float.pow_with libm le 3 = Ok c -> (c =? 0)%float = true ->
      @get_Ke float (float_arith libm) EB_beam Ae Ee le EIe =
      Err ZeroDivisionError) /\
  (forall Ae Ee le EIe : Q,
      ~ le == 0 ->
      exists v : list Q,
        get_Ke EB_beam Ae Ee le EIe = Ok (Arr1 v) /\
        vec_eq v (map (Qmult (EIe / le ^ 3))
                    [ 12; 6 * le; -(12); 6 * le;
                      6 * le; 4 * le ^ 2; -(6) * le; 2 * le ^ 2;
                      -(12); -(6) * le; 12; -(6) * le;
                      6 * le; 2 * le ^ 2; -(6) * le; 4 * le ^ 2 ])%Q) /\
  (forall (libm : float -> positive -> float) (Ae Ee : float),
      libm 2%float 3%positive = 8%float ->
      libm 2%float 2%positive = 4%float ->
      @get_Ke float (float_arith libm) EB_beam Ae Ee 2%float 1%float =
      Ok (Arr1 [ 1.5; 1.5; -1.5; 1.5; 1.5; 2; -1.5; 1;
                 -1.5; -1.5; 1.5; -1.5; 1.5; 1; -1.5; 2 ]%float)).
Proof.
  assert (forall (libm : float -> positive -> float) (Ae Ee le EIe c s : float),
             Float.pow_with libm le 3 = Ok c -> (c =? 0)%float = false ->
             Float.pow_with libm le 2 = Ok s ->
             @get_Ke float (float_arith libm) EB_beam Ae Ee le EIe =
             Ok (Arr1 [ EIe / c * 12; EIe / c * (6 * le); EIe / c * -12;
                        EIe / c * (6 * le);
                        EIe / c * (6 * le); EIe / c * (4 * s);
                        EIe / c * (-6 * le); EIe / c * (2 * s);
                        EIe / c * -12; EIe / c * (-6 * le); EIe / c * 12;
                        EIe / c * (-6 * le);
                        EIe / c * (6 * le); EIe / c * (2 * s);
                        EIe / c * (-6 * le); EIe / c * (4 * s) ]%float)) as G.
  { intros libm Ae Ee le EIe c s Hc Hz Hs.
    apply (@get_Ke_beam_steps float (float_arith libm)
             Ae Ee le EIe c (EIe / c)%float s Hc); [| exact Hs].
    apply (float_truediv_nonzero _ _ Hz). }
  repeat apply conj.
  - intros libm Ae Ee le EIe Hpos Hfin Hone c s Hc Hs Hz k.
    apply G; [| exact Hz |];
      rewrite (pow_with_positive libm le _ Hpos Hfin Hone).
    + fold c. rewrite Hc. reflexivity.
    + fold s. rewrite Hs. reflexivity.
  - intros libm Ae Ee le EIe c s Hc Hz Hs k. apply G; assumption.
  - intros libm Ae Ee le EIe c Hc Hz. unfold get_Ke.
    cbn [EB_beam init problem_type].
    change ("EB_beam" =? "Elasticity")%string with false.
    change ("EB_beam" =? "EB_beam")%string with true. cbv iota.
    change (@pow float (float_arith libm) le 3) with (Float.pow_with libm le 3).
    rewrite Hc. cbn [bind].
    change (@truediv float (float_arith libm) EIe c)
      with (@truediv float Scalar_float EIe c).
    rewrite (float_truediv_zero _ _ Hz). reflexivity.
  - intros Ae Ee le EIe Hle.
    pose proof (Qpower_positive_nonzero le 3 Hle) as Hc.
    eexists. split.
    + apply (get_Ke_beam_steps Ae Ee le EIe (Qpower_positive le 3)
               (EIe / Qpower_positive le 3)%Q (Qpower_positive le 2));
        [reflexivity | | reflexivity].
      apply (exact_truediv_nonzero _ _ Hc).
    + repeat constructor; cbn; field; exact Hle.
  - intros libm Ae Ee H3 H2.
    rewrite (G libm Ae Ee 2%float 1%float 8%float 4%float).
    + reflexivity.
    + rewrite (pow_with_positive libm 2%float 3 eq_refl eq_refl eq_refl), H3.
      reflexivity.
    + reflexivity.
    + rewrite (pow_with_positive libm 2%float 2 eq_refl eq_refl eq_refl), H2.
      reflexivity.
Qed.

(** A beam element of length 3 with [EI = 54], the powers 27 and 9 from the
    correctly rounded library. *)
Lemma beam_stiffness_witness :
  @get_Ke float (float_arith Float.libm_rounded) EB_beam
    0%float 0%float 3%float 54%float =
  Ok (Arr1 [ 24; 36; -24; 36; 36; 72; -36; 36;
             -24; -36; 24; -36; 36; 36; -36; 72 ]%float).
Proof.
  destruct beam_stiffness as (Hlibm & _).
  apply (Hlibm Float.libm_rounded 0%float 0%float 3%float 54%float);
    reflexivity.
Defined.

(** C3 as stated fails at [l = 0]: the division [EI / l**3] raises. *)
Lemma beam_stiffness_zero_length :
  get_Ke EB_beam 0%float 0%float 0%float 1%float = Err ZeroDivisionError.
Proof. reflexivity. Qed.

(** ** Symmetry of the beam stiffness (C10) *)

(** Whatever the beam branch of [get_Ke] returns is of the shape computed in
    [get_Ke_beam_steps]. *)
Lemma get_Ke_beam_inv {T : Type} `{Scalar T} (Ae Ee le EIe : T)
    (r : ndarray T) :
  get_Ke EB_beam Ae Ee le EIe = Ok r ->
  exists c k s : T,
    pow le 3 = Ok c /\ truediv EIe c = Ok k /\ pow le 2 = Ok s /\
    r = Arr1 (scale k
                [ lit 12; lit 6 * le; lit (-12); lit 6 * le;
                  lit 6 * le; lit 4 * s; lit (-6) * le; lit 2 * s;
                  lit (-12); lit (-6) * le; lit 12; lit (-6) * le;
                  lit 6 * le; lit 2 * s; lit (-6) * le; lit 4 * s ]%num).
Proof.
  intros E.
  destruct (pow le 3) as [c | e1] eqn:Hc.
  - destruct (truediv EIe c) as [k | e2] eqn:Hk.
    + destruct (pow le 2) as [s | e3] eqn:Hs.
      * rewrite (get_Ke_beam_steps Ae Ee le EIe c k s Hc Hk Hs) in E.
        injection E as <-. exists c, k, s. repeat split; assumption.
      * unfold get_Ke in E. cbn [EB_beam init problem_type] in E.
        change ("EB_beam" =? "Elasticity")%string with false in E.
        change ("EB_beam" =? "EB_beam")%string with true in E. cbv iota in E.
        rewrite Hc in E. cbn [bind] in E. rewrite Hk in E.
        cbn [bind sequence] in E. rewrite Hs in E. discriminate E.
    + unfold get_Ke in E. cbn [EB_beam init problem_type] in E.
      change ("EB_beam" =? "Elasticity")%string with false in E.
      change ("EB_beam" =? "EB_beam")%string with true in E. cbv iota in E.
      rewrite Hc in E. cbn [bind] in E. rewrite Hk in E. discriminate E.
  - unfold get_Ke in E. cbn [EB_beam init problem_type] in E.
    change ("EB_beam" =? "Elasticity")%string with false in E.
    change ("EB_beam" =? "EB_beam")%string with true in E. cbv iota in E.
    rewrite Hc in E. discriminate E.
Qed.

(** C10.  Under ['EB_beam'], for every [EI] and [l], the sequence returned by
    the stiffness operation has 16 elements and is symmetric as a 4 x 4
    matrix: for all [ii, jj] in [0,4) the entry at position [ii*4+jj] equals
    the entry at position [jj*4+ii].  This holds in every arithmetic. *)
Theorem beam_stiffness_symmetric
    (T : Type) `{Scalar T} (Ae Ee le EIe : T) (r : ndarray T) :
  get_Ke EB_beam Ae Ee le EIe = Ok r ->
  exists v : list T,
    r = Arr1 v /\ List.length v = 16%nat /\
    forall ii jj : nat,
      (ii < 4)%nat -> (jj < 4)%nat ->
      nth_error v (ii * 4 + jj) = nth_error v (jj * 4 + ii).
Proof.
  intros E. apply get_Ke_beam_inv in E as (c & k & s & _ & _ & _ & ->).
  eexists. split; [reflexivity |]. split; [reflexivity |].
  intros ii jj Hii Hjj.
  destruct ii as [| [| [| [| ii]]]]; try lia;
    destruct jj as [| [| [| [| jj]]]]; try lia; reflexivity.
Qed.

(** The stiffness of a beam element with [EI = 1] and [l = 2] is symmetric. *)
Lemma beam_stiffness_symmetric_witness :
  exists v : list float,
    Arr1 [ 1.5; 1.5; -1.5; 1.5; 1.5; 2; -1.5; 1;
           -1.5; -1.5; 1.5; -1.5; 1.5; 1; -1.5; 2 ]%float = Arr1 v /\
    List.length v = 16%nat /\
    forall ii jj : nat,
      (ii < 4)%nat -> (jj < 4)%nat ->
      nth_error v (ii * 4 + jj) = nth_error v (jj * 4 + ii).
Proof.
  apply (beam_stiffness_symmetric float 0%float 0%float 2%float 1%float).
  reflexivity.
Defined.

(** ** Scaling of the beam stiffness (C2) *)

(** C2, as amended.  Under ['EB_beam'], in exact arithmetic and for every
    [EI] and every [l <> 0]: replacing [EI] by [2*EI] doubles every entry of
    the returned 16-element sequence; replacing [l] by [2*l] multiplies the
    entry at position [ii*4+jj] by [1/8] when [ii] and [jj] are both even, by
    [1/4] when exactly one of them is odd and by [1/2] when both are odd
    (the entries are [12 EI/l^3], [6 EI/l^2] and [4 EI/l], [2 EI/l]). *)
Theorem beam_stiffness_scaling (Ae Ee le EIe : Q) :
  ~ le == 0 ->
  exists v vEI vl : list Q,
    get_Ke EB_beam Ae Ee le EIe = Ok (Arr1 v) /\
    get_Ke EB_beam Ae Ee le (2 * EIe)%Q = Ok (Arr1 vEI) /\
    get_Ke EB_beam Ae Ee (2 * le)%Q EIe = Ok (Arr1 vl) /\
    forall ii jj : nat,
      (ii < 4)%nat -> (jj < 4)%nat ->
      (nth (ii * 4 + jj) vEI 0 == 2 * nth (ii * 4 + jj) v 0)%Q /\
      (nth (ii * 4 + jj) vl 0 ==
       (1 # 2) ^ (3 - Z.b2z (Nat.odd ii) - Z.b2z (Nat.odd jj)) *
       nth (ii * 4 + jj) v 0)%Q.
Proof.
  intros Hle.
  assert (~ (2 * le)%Q == 0) as Hle2.
  { intros E. apply Hle. apply (Qmult_inj_l le 0 2); [discriminate |].
    rewrite E. reflexivity. }
  pose proof (Qpower_positive_nonzero le 3 Hle) as Hc.
  pose proof (Qpower_positive_nonzero (2 * le)%Q 3 Hle2) as Hc2.
  eexists. eexists. eexists. repeat apply conj.
  - apply (get_Ke_beam_steps Ae Ee le EIe (Qpower_positive le 3)
             (EIe / Qpower_positive le 3)%Q (Qpower_positive le 2));
      [reflexivity | | reflexivity].
    apply (exact_truediv_nonzero _ _ Hc).
  - apply (get_Ke_beam_steps Ae Ee le (2 * EIe)%Q (Qpower_positive le 3)
             (2 * EIe / Qpower_positive le 3)%Q (Qpower_positive le 2));
      [reflexivity | | reflexivity].
    apply (exact_truediv_nonzero _ _ Hc).
  - apply (get_Ke_beam_steps Ae Ee (2 * le)%Q EIe
             (Qpower_positive (2 * le) 3)
             (EIe / Qpower_positive (2 * le) 3)%Q
             (Qpower_positive (2 * le) 2));
      [reflexivity | | reflexivity].
    apply (exact_truediv_nonzero _ _ Hc2).
  - intros ii jj Hii Hjj.
    destruct ii as [| [| [| [| ii]]]]; try lia;
      destruct jj as [| [| [| [| jj]]]]; try lia;
      split; cbn; field; exact Hle.
Qed.

(** A beam element with [EI = 1] and [l = 1]. *)
Lemma beam_stiffness_scaling_witness :
  exists v vEI vl : list Q,
    get_Ke EB_beam 0%Q 0%Q 1%Q 1%Q = Ok (Arr1 v) /\
    get_Ke EB_beam 0%Q 0%Q 1%Q (2 * 1)%Q = Ok (Arr1 vEI) /\
    get_Ke EB_beam 0%Q 0%Q (2 * 1)%Q 1%Q = Ok (Arr1 vl) /\
    forall ii jj : nat,
      (ii < 4)%nat -> (jj < 4)%nat ->
      (nth (ii * 4 + jj) vEI 0 == 2 * nth (ii * 4 + jj) v 0)%Q /\
      (nth (ii * 4 + jj) vl 0 ==
       (1 # 2) ^ (3 - Z.b2z (Nat.odd ii) - Z.b2z (Nat.odd jj)) *
       nth (ii * 4 + jj) v 0)%Q.
Proof.
  apply (beam_stiffness_scaling 0 0 1 1)%Q. discriminate.
Defined.

(** Two floats differ when a test on them computes to different values. *)
Ltac float_neq test :=
  let E := fresh "E" in
  intros E; apply (f_equal test) in E; vm_compute in E; discriminate E.

(** C2 as stated fails.  Doubling the length [l = 1] of a beam with [EI = 1]
    does not multiply every entry by [1/8]: the entry [6 EI/l^2] at position
    1 goes from [6] to [1.5], not to [0.75].  And in doubles, doubling
    [EI = 3 * 2^-1074] at [l = 2] takes the entries from [0] to non-zero
    values, because [EI / 8] is rounded to [0]. *)
Lemma beam_stiffness_scaling_fails :
  (get_Ke EB_beam 0 0 1 1 =
   Ok (Arr1 [ 12; 6; -12; 6; 6; 4; -6; 2; -12; -6; 12; -6; 6; 2; -6; 4 ]) /\
   get_Ke EB_beam 0 0 (2 * 1) 1 =
   Ok (Arr1 [ 1.5; 1.5; -1.5; 1.5; 1.5; 2; -1.5; 1;
              -1.5; -1.5; 1.5; -1.5; 1.5; 1; -1.5; 2 ]) /\
   (6 * (1 / 8) = 0.75 /\ 1.5 <> 0.75))%float /\
  (get_Ke EB_beam 0 0 2 0x3p-1074 =
   Ok (Arr1 [ 0; 0; -0; 0; 0; 0; -0; 0; -0; -0; 0; -0; 0; 0; -0; 0 ]) /\
   get_Ke EB_beam 0 0 2 (2 * 0x3p-1074) =
   Ok (Arr1 [ 0xcp-1074; 0xcp-1074; -0xcp-1074; 0xcp-1074;
              0xcp-1074; 0x10p-1074; -0xcp-1074; 0x8p-1074;
              -0xcp-1074; -0xcp-1074; 0xcp-1074; -0xcp-1074;
              0xcp-1074; 0x8p-1074; -0xcp-1074; 0x10p-1074 ]) /\
   (2 * 0 = 0 /\ 0xcp-1074 <> 0))%float.
Proof.
  repeat apply conj; try reflexivity.
  - float_neq (fun x => (x =? 0.75)%float).
  - float_neq (fun x => (x =? 0)%float).
Qed.

(** ** Distributed load of the bar (C6) *)




(** ** Gauss-point mapping (C7) *)

(** C7, as amended.  For every [x], [a], [b] and whatever the stored
    [problem_type], the interpolation returns the value of
    [0.5(a+b) + 0.5(b-a)x]; it has no failing step.  In exact arithmetic it
    maps [x = -1] to [a] and [x = 1] to [b] for all [a] and [b]; in doubles,
    where each operation is rounded, it does so for the samples of the
    specification ([a=-1, b=1, x=0] gives [0.0]; [a=0, b=10, x=1] gives
    [10.0]). *)
Theorem gauss_point_mapping :
  (forall (T : Type) `{Scalar T} (self self' : FiniteElement) (f a b : T),
      get_gauss_quadrature_index self f a b =
      get_gauss_quadrature_index self' f a b) /\
  (forall (self : FiniteElement) (f a b : float),
      get_gauss_quadrature_index self f a b =
      (0.5 * (a + b) + 0.5 * (b - a) * f)%float) /\
  (forall (self : FiniteElement) (a b : Q),
      get_gauss_quadrature_index self (- (1))%Q a b == a /\
      get_gauss_quadrature_index self 1%Q a b == b) /\
  (forall self : FiniteElement,
      get_gauss_quadrature_index self 0 (-1) 1 = 0 /\
      get_gauss_quadrature_index self 1 0 10 = 10)%float.
Proof.
  repeat apply conj.
  - intros T HT self self' f a b. reflexivity.
  - intros self f a b. reflexivity.
  - intros self a b. unfold get_gauss_quadrature_index.
    split; cbn; ring.
  - intros self. split; reflexivity.
Qed.

(** C7 as stated fails in doubles: with [a = 0.1] and [b = 0.3] the point
    [x = -1] is mapped to [0.10000000000000002], and with [a = 1] and
    [b = 2^53] to [0.5]. *)
Lemma gauss_point_boundary_rounding :
  (get_gauss_quadrature_index Elasticity (-1) 0.1 0.3 = 0.10000000000000002 /\
   0.10000000000000002 <> 0.1 /\
   get_gauss_quadrature_index Elasticity (-1) 1 0x1p53 = 0.5 /\
   0.5 <> 1)%float.
Proof.
  repeat apply conj; try reflexivity.
  - float_neq (fun x => (x =? 0.1)%float).
  - float_neq (fun x => (x =? 1)%float).
Qed.

(** ** Strain recovery (C8) *)

(** C8, as amended.  Under ['Elasticity'], for every [l <> 0] and every
    displacement pair [d = [d1, d2]], the strain operation returns the scalar
    [(1/l) * ([-1, 1] . d)], in exact arithmetic [(1/l)(-d1 + d2)]; with
    [l = 2] and [d = [1, 3]] it returns [1.0]; for [l = 0] the division
    [1/l] raises [ZeroDivisionError].  Under every other [problem_type] it
    fails with [InvalidElementType]. *)
Theorem bar_strain :
  (forall le d1 d2 : float,
      (le =? 0)%float = false ->
      get_strain_e Elasticity le [d1; d2] =
      Ok (1 / le * (0 + - d1 + d2))%float) /\
  (forall (le : float) (de : list float),
      (le =? 0)%float = true ->
      get_strain_e Elasticity le de = Err ZeroDivisionError) /\
  (forall le d1 d2 : Q,
      ~ le == 0 ->
      exists r : Q,
        get_strain_e Elasticity le [d1; d2] = Ok r /\
        r == 1 / le * (- d1 + d2)) /\
  get_strain_e Elasticity 2%float [1; 3]%float = Ok 1%float /\
  (forall (T : Type) `{Scalar T} (self : FiniteElement) (le : T) (de : list T),
      problem_type self <> "Elasticity"%string ->
      get_strain_e self le de = Err InvalidElementType).
Proof.
  repeat apply conj.
  - intros le d1 d2 Hle. unfold get_strain_e.
    cbn [Elasticity init problem_type].
    change ("Elasticity" =? "Elasticity")%string with true. cbv iota.
    rewrite (float_truediv_nonzero _ _ Hle).
    transitivity (Ok (1 / le * (0 + -1 * d1 + 1 * d2))%float);
      [reflexivity |].
    rewrite float_minus_one_mul, float_one_mul. reflexivity.
  - intros le de Hle. unfold get_strain_e.
    cbn [Elasticity init problem_type].
    change ("Elasticity" =? "Elasticity")%string with true. cbv iota.
    rewrite (float_truediv_zero _ _ Hle). reflexivity.
  - intros le d1 d2 Hle. unfold get_strain_e.
    cbn [Elasticity init problem_type].
    change ("Elasticity" =? "Elasticity")%string with true. cbv iota.
    rewrite (exact_truediv_nonzero _ _ Hle).
    eexists. split; [reflexivity |]. cbn. field. exact Hle.
  - reflexivity.
  - intros T HT self le de Htag. unfold get_strain_e.
    apply String.eqb_neq in Htag. rewrite Htag. reflexivity.
Qed.

(** A bar of length 2 stretched from displacement 1 to displacement 3, and
    the strain asked of a beam kernel. *)
Lemma bar_strain_witness :
  get_strain_e Elasticity 2%float [1; 3]%float =
  Ok (1 / 2 * (0 + - (1) + 3))%float /\
  get_strain_e EB_beam 2%float [1; 3]%float = Err InvalidElementType.
Proof.
  destruct bar_strain as (Hfloat & _ & _ & _ & Hother).
  split.
  - apply Hfloat. reflexivity.
  - apply Hother. discriminate.
Defined.

(** C8 as stated fails at [l = 0]: the division [1/l] raises. *)
Lemma bar_strain_zero_length :
  get_strain_e Elasticity 0%float [1; 3]%float = Err ZeroDivisionError.
Proof. reflexivity. Qed.

(** ** Dynamic and static beam loads (C9) *)

Lemma getitem_in_range {A : Type} (xs : list A) (i : Z) :
  - Z.of_nat (List.length xs) <= i < Z.of_nat (List.length xs) ->
  exists x : A, getitem xs i = Ok x.
Proof.
  intros Hi. unfold getitem, index.
  set (n := Z.of_nat (List.length xs)) in *.
  set (j := if i <? 0 then i + n else i).
  assert (0 <= j < n) as Hj.
  { subst j. destruct (Z.ltb_spec i 0); lia. }
  replace ((0 <=? j) && (j <? n)) with true
    by (symmetry; apply andb_true_iff; split;
        [apply Z.leb_le | apply Z.ltb_lt]; lia).
  cbn [bind].
  destruct (nth_error xs (Z.to_nat j)) as [x |] eqn:E.
  - exists x. reflexivity.
  - apply nth_error_None in E. subst n. lia.
Qed.

(** What a valid subscript reads: element [node mod len(xs)]. *)
Lemma getitem_nth {A : Type} (d : A) (xs : list A) (i : Z) :
  - Z.of_nat (List.length xs) <= i < Z.of_nat (List.length xs) ->
  getitem xs i =
  Ok (nth (Z.to_nat (i mod Z.of_nat (List.length xs))) xs d).
Proof.
  intros Hi. unfold getitem, index.
  set (n := Z.of_nat (List.length xs)) in *.
  set (j := if i <? 0 then i + n else i).
  assert (0 <= j < n) as Hj.
  { subst j. destruct (Z.ltb_spec i 0); lia. }
  assert (i mod n = j) as Hmod.
  { subst j. destruct (Z.ltb_spec i 0) as [Hneg | Hpos].
    - symmetry. apply (Z.mod_unique i n (-1) (i + n)); lia.
    - apply Z.mod_small. lia. }
  rewrite Hmod.
  replace ((0 <=? j) && (j <? n)) with true
    by (symmetry; apply andb_true_iff; split;
        [apply Z.leb_le | apply Z.ltb_lt]; lia).
  cbn [bind].
  destruct (nth_error xs (Z.to_nat j)) as [x |] eqn:E.
  - rewrite (nth_error_nth xs (Z.to_nat j) d E). reflexivity.
  - apply nth_error_None in E. subst n. lia.
Qed.

(** C9.  Under ['EB_beam'], for every [l], every load sequence [f] and every
    valid index [node] ([-len(f) <= node < len(f)]), the dynamic load reads
    the element [f[node]] (the one at position [node mod len(f)]) and returns
    exactly what the static load returns for that scalar, in every
    arithmetic.  In doubles both are [(f[node]*l/2) * [1, l/6, 1, -l/6]],
    that is [[k, k*(l/6), k, k*(-l/6)]] with [k = f[node]*l/2]; in exact
    arithmetic [[f l/2, f l^2/12, f l/2, -f l^2/12]]. *)
Theorem dynamic_load_is_static_load :
  (forall (T : Type) `{Scalar T} (d le b1 b2 b1' b2' : T) (fe : list T)
          (node : Z),
      - Z.of_nat (List.length fe) <= node < Z.of_nat (List.length fe) ->
      get_dynamic_fe_omega EB_beam le b1 b2 fe node =
      get_fe_omega EB_beam le b1' b2'
        (nth (Z.to_nat (node mod Z.of_nat (List.length fe))) fe d)) /\
  (forall (le b1 b2 b1' b2' : float) (fe : list float) (node : Z),
      - Z.of_nat (List.length fe) <= node < Z.of_nat (List.length fe) ->
      let f := nth (Z.to_nat (node mod Z.of_nat (List.length fe))) fe 0%float in
      let k := (f * le / 2)%float in
      get_dynamic_fe_omega EB_beam le b1 b2 fe node =
      Ok (Arr1 [k; k * (le / 6); k; k * (- le / 6)]%float) /\
      get_fe_omega EB_beam le b1' b2' f =
      Ok (Arr1 [k; k * (le / 6); k; k * (- le / 6)]%float)) /\
  (forall (le b1 b2 : Q) (fe : list Q) (node : Z),
      - Z.of_nat (List.length fe) <= node < Z.of_nat (List.length fe) ->
      let f := nth (Z.to_nat (node mod Z.of_nat (List.length fe))) fe 0%Q in
      exists v : list Q,
        get_dynamic_fe_omega EB_beam le b1 b2 fe node = Ok (Arr1 v) /\
        vec_eq v [ f * le / 2; f * le * le / 12;
                   f * le / 2; - (f * le * le / 12) ]%Q).
Proof.
  assert (forall (T : Type) `{Scalar T} (d le b1 b2 b1' b2' : T)
                 (fe : list T) (node : Z),
             - Z.of_nat (List.length fe) <= node < Z.of_nat (List.length fe) ->
             get_dynamic_fe_omega EB_beam le b1 b2 fe node =
             get_fe_omega EB_beam le b1' b2'
               (nth (Z.to_nat (node mod Z.of_nat (List.length fe))) fe d)) as G.
  { intros T HT d le b1 b2 b1' b2' fe node Hnode.
    unfold get_dynamic_fe_omega, get_fe_omega.
    cbn [EB_beam init problem_type].
    change ("EB_beam" =? "Elasticity")%string with false.
    change ("EB_beam" =? "EB_beam")%string with true. cbv iota.
    rewrite (getitem_nth d fe node Hnode). reflexivity. }
  assert (forall le b1' b2' f : float,
             get_fe_omega EB_beam le b1' b2' f =
             Ok (Arr1 [ f * le / 2; f * le / 2 * (le / 6);
                        f * le / 2; f * le / 2 * (- le / 6) ]%float)) as S.
  { intros le b1' b2' f.
    transitivity
      (Ok (Arr1 [ f * le / 2 * 1; f * le / 2 * (le / 6);
                  f * le / 2 * 1; f * le / 2 * (- le / 6) ]%float));
      [reflexivity |].
    rewrite float_mul_one. reflexivity. }
  repeat apply conj.
  - exact G.
  - intros le b1 b2 b1' b2' fe node Hnode f k. split.
    + rewrite (G float _ 0%float le b1 b2 b1' b2' fe node Hnode). apply S.
    + apply S.
  - intros le b1 b2 fe node Hnode f.
    rewrite (G Q _ 0%Q le b1 b2 b1 b2 fe node Hnode).
    eexists. split; [reflexivity |].
    fold f. repeat constructor; cbn; field.
Qed.

(** The load at the last node of a three-node load sequence, addressed from
    the end: [fe[-1]] is [5]. *)
Lemma dynamic_load_is_static_load_witness :
  get_dynamic_fe_omega EB_beam 2%float 0%float 0%float [1; 3; 5]%float (-1) =
  Ok (Arr1 [ 5 * 2 / 2; 5 * 2 / 2 * (2 / 6);
             5 * 2 / 2; 5 * 2 / 2 * (- (2) / 6) ]%float) /\
  get_fe_omega EB_beam 2%float 0%float 0%float 5%float =
  Ok (Arr1 [ 5 * 2 / 2; 5 * 2 / 2 * (2 / 6);
             5 * 2 / 2; 5 * 2 / 2 * (- (2) / 6) ]%float).
Proof.
  destruct dynamic_load_is_static_load as (_ & Hfloat & _).
  apply (Hfloat 2%float 0%float 0%float 0%float 0%float [1; 3; 5]%float (-1)).
  cbn. lia.
Defined.

(** * Further properties of the kernels *)

(** ** Signs in binary64 *)

(** Rounding treats the sign as a label: negating the input negates the
    result.  So products and quotients of doubles change sign exactly. *)
Lemma binary_round_aux_opp (s : bool) (m e : Z) (l : location) :
  binary_round_aux prec emax (negb s) m e l =
  SFopp (binary_round_aux prec emax s m e l).
Proof.
  unfold binary_round_aux.
  destruct (shr_fexp prec emax m e l) as [mrs' e'].
  destruct (shr_fexp prec emax _ e' loc_Exact) as [mrs'' e''].
  destruct (shr_m mrs'') as [| p | p]; try reflexivity.
  destruct (e'' <=? emax - prec); reflexivity.
Qed.

Lemma SFmul_opp_r (x y : spec_float) :
  SFmul prec emax x (SFopp y) = SFopp (SFmul prec emax x y).
Proof.
  destruct x as [sx | sx | | sx mx ex], y as [sy | sy | | sy my ey];
    cbn [SFmul SFopp]; rewrite <- ?negb_xorb_r; try reflexivity.
  apply binary_round_aux_opp.
Qed.

Lemma SFdiv_opp_l (x y : spec_float) :
  SFdiv prec emax (SFopp x) y = SFopp (SFdiv prec emax x y).
Proof.
  destruct x as [sx | sx | | sx mx ex], y as [sy | sy | | sy my ey];
    cbn [SFdiv SFopp]; rewrite <- ?negb_xorb_l; try reflexivity.
  destruct (SFdiv_core_binary prec emax (Zpos mx) ex (Zpos my) ey)
    as [[mz ez] lz].
  apply binary_round_aux_opp.
Qed.

Lemma float_mul_opp_r (x y : float) : (x * - y)%float = (- (x * y))%float.
Proof.
  apply Prim2SF_inj. rewrite opp_spec, !mul_spec, opp_spec.
  apply SFmul_opp_r.
Qed.

Lemma float_mul_opp_l (x y : float) : (- x * y)%float = (- (x * y))%float.
Proof.
  rewrite (float_mul_comm (- x) y), float_mul_opp_r, (float_mul_comm y x).
  reflexivity.
Qed.

Lemma float_div_opp_l (x y : float) : (- x / y)%float = (- (x / y))%float.
Proof.
  apply Prim2SF_inj. rewrite opp_spec, !div_spec, opp_spec.
  apply SFdiv_opp_l.
Qed.

Lemma float_opp_involutive (x : float) : (- - x)%float = x.
Proof.
  apply Prim2SF_inj. rewrite !opp_spec.
  destruct (Prim2SF x) as [s | s | | s m e]; cbn [SFopp];
    rewrite ?negb_involutive; reflexivity.
Qed.

(** ** Equilibrium of the load vectors *)

(** X1.  Under ['EB_beam'] the static load never fails in doubles, whatever
    the length and the load (its divisors are the literals [2.0] and [6.0]),
    and the vector it returns is balanced exactly: the two force entries are
    the same double and the two moment entries are exact opposites.  In exact
    arithmetic the forces add up to the total load [f*l] and the moments
    cancel. *)
Theorem beam_load_balanced :
  (forall le b1 b2 fe : float,
      exists F M : float,
        get_fe_omega EB_beam le b1 b2 fe = Ok (Arr1 [F; M; F; - M]%float)) /\
  (forall le b1 b2 fe : Q,
      exists F1 M1 F2 M2 : Q,
        get_fe_omega EB_beam le b1 b2 fe = Ok (Arr1 [F1; M1; F2; M2]) /\
        (F1 + F2 == fe * le)%Q /\ (M1 + M2 == 0)%Q).
Proof.
  split.
  - intros le b1 b2 fe.
    exists (fe * le / 2)%float, (fe * le / 2 * (le / 6))%float.
    transitivity
      (Ok (Arr1 [ fe * le / 2 * 1; fe * le / 2 * (le / 6);
                  fe * le / 2 * 1; fe * le / 2 * (- le / 6) ]%float));
      [reflexivity |].
    rewrite float_mul_one, float_div_opp_l, float_mul_opp_r. reflexivity.
  - intros le b1 b2 fe.
    eexists. eexists. eexists. eexists.
    split; [reflexivity |]. split; cbn; field.
Qed.

(** X2.  Under ['Elasticity'], in exact arithmetic, the two nodal forces of
    the distributed load add up to the resultant [l*(b1+b2)/2] of the
    linearly varying body force, the heavier end receives the larger share,
    and exchanging [b1] and [b2] exchanges the two nodal forces. *)
Theorem bar_load_resultant (le b1 b2 fe : Q) :
  exists p q : Q,
    get_fe_omega Elasticity le b1 b2 fe = Ok (Arr2 [[p]; [q]]) /\
    (p + q == le * (b1 + b2) / 2)%Q /\
    (q - p == le * (b2 - b1) / 6)%Q /\
    exists p' q' : Q,
      get_fe_omega Elasticity le b2 b1 fe = Ok (Arr2 [[p']; [q']]) /\
      p' == q /\ q' == p.
Proof.
  eexists. eexists. split; [reflexivity |].
  split; [cbn; field |]. split; [cbn; field |].
  eexists. eexists. split; [reflexivity |].
  split; cbn; field.
Qed.

(** ** Stiffness, strain and rigid motions *)

(** X3.  Under ['Elasticity'], in exact arithmetic and for [l <> 0], the
    stiffness matrix applied to a displacement pair gives the nodal forces
    [-N] and [N] with [N = A*E*strain], the strain being what
    [get_strain_e] recovers from the same pair.  A rigid translation
    [d = [c, c]] therefore has zero strain and zero nodal forces. *)
Theorem bar_forces_from_strain (Ae Ee le EIe d1 d2 : Q) :
  ~ le == 0 ->
  exists (m : list (list Q)) (eps : Q),
    get_Ke Elasticity Ae Ee le EIe = Ok (Arr2 m) /\
    get_strain_e Elasticity le [d1; d2] = Ok eps /\
    mat_eq (matmul m [[d1]; [d2]])
           [[- (Ae * Ee * eps)]; [Ae * Ee * eps]]%Q /\
    (d1 == d2 -> eps == 0 /\ mat_eq (matmul m [[d1]; [d2]]) [[0]; [0]]%Q).
Proof.
  intros Hle.
  eexists. eexists. split.
  - unfold get_Ke. cbn [Elasticity init problem_type].
    change ("Elasticity" =? "Elasticity")%string with true. cbv iota.
    rewrite (exact_truediv_nonzero _ _ Hle). reflexivity.
  - split.
    + unfold get_strain_e. cbn [Elasticity init problem_type].
      change ("Elasticity" =? "Elasticity")%string with true. cbv iota.
      rewrite (exact_truediv_nonzero _ _ Hle). reflexivity.
    + split.
      * repeat constructor; cbn; field; exact Hle.
      * intros Hd. split.
        -- cbn. rewrite Hd. field. exact Hle.
        -- repeat constructor; cbn; rewrite Hd; field; exact Hle.
Qed.

(** A bar of length 2 pulled from displacement 1 to displacement 3. *)
Lemma bar_forces_from_strain_witness :
  exists (m : list (list Q)) (eps : Q),
    get_Ke Elasticity 2%Q 3%Q 2%Q 0%Q = Ok (Arr2 m) /\
    get_strain_e Elasticity 2%Q [1; 3]%Q = Ok eps /\
    mat_eq (matmul m [[1]; [3]]%Q) [[- (2 * 3 * eps)]; [2 * 3 * eps]]%Q /\
    (1%Q == 3%Q ->
     eps == 0 /\ mat_eq (matmul m [[1]; [3]]%Q) [[0]; [0]]%Q).
Proof.
  apply (bar_forces_from_strain 2 3 2 0 1 3)%Q. discriminate.
Defined.

(** X4.  Under ['EB_beam'], in exact arithmetic and for [l <> 0], the
    stiffness sequence read as a 4 x 4 matrix annihilates the two rigid
    motions of the element: the translation [(1, 0, 1, 0)] and the rotation
    about the first node [(0, 1, l, 1)].  Each of its rows does. *)
Theorem beam_stiffness_rigid_motions (Ae Ee le EIe : Q) :
  ~ le == 0 ->
  exists v : list Q,
    get_Ke EB_beam Ae Ee le EIe = Ok (Arr1 v) /\
    forall ii : nat,
      (ii < 4)%nat ->
      (nth (ii * 4) v 0 + nth (ii * 4 + 2) v 0 == 0)%Q /\
      (nth (ii * 4 + 1) v 0 + le * nth (ii * 4 + 2) v 0 +
       nth (ii * 4 + 3) v 0 == 0)%Q.
Proof.
  intros Hle.
  pose proof (Qpower_positive_nonzero le 3 Hle) as Hc.
  eexists. split.
  - apply (get_Ke_beam_steps Ae Ee le EIe (Qpower_positive le 3)
             (EIe / Qpower_positive le 3)%Q (Qpower_positive le 2));
      [reflexivity | | reflexivity].
    apply (exact_truediv_nonzero _ _ Hc).
  - intros ii Hii.
    destruct ii as [| [| [| [| ii]]]]; try lia;
      split; cbn; field; exact Hle.
Qed.

(** A beam element of length 2 with [EI = 1]. *)
Lemma beam_stiffness_rigid_motions_witness :
  exists v : list Q,
    get_Ke EB_beam 0%Q 0%Q 2%Q 1%Q = Ok (Arr1 v) /\
    forall ii : nat,
      (ii < 4)%nat ->
      (nth (ii * 4) v 0 + nth (ii * 4 + 2) v 0 == 0)%Q /\
      (nth (ii * 4 + 1) v 0 + 2 * nth (ii * 4 + 2) v 0 +
       nth (ii * 4 + 3) v 0 == 0)%Q.
Proof.
  apply (beam_stiffness_rigid_motions 0 0 2 1)%Q. discriminate.
Defined.

(** X5.  Under ['EB_beam'], in doubles, whatever sequence the stiffness
    operation returns has its transverse-force rows and columns in exact
    balance: column 2 is the exact negation of column 0, and row 2 the exact
    negation of row 0, with no rounding residue (also when entries are
    infinite). *)
Theorem beam_stiffness_force_balance (Ae Ee le EIe : float) (v : list float) :
  get_Ke EB_beam Ae Ee le EIe = Ok (Arr1 v) ->
  forall ii : nat,
    (ii < 4)%nat ->
    nth (ii * 4 + 2) v 0%float = (- nth (ii * 4) v 0)%float /\
    nth (2 * 4 + ii) v 0%float = (- nth ii v 0)%float.
Proof.
  intros E ii Hii.
  apply get_Ke_beam_inv in E as (c & k & s & _ & _ & _ & E).
  injection E as ->.
  cbn [scale map mul Scalar_float].
  change (Float.of_Z (-12)) with (- (Float.of_Z 12))%float.
  change (Float.of_Z (-6)) with (- (Float.of_Z 6))%float.
  rewrite !float_mul_opp_l, !float_mul_opp_r.
  destruct ii as [| [| [| [| ii]]]]; try lia;
    cbn [nth Nat.mul Nat.add]; rewrite ?float_opp_involutive;
    split; reflexivity.
Qed.

(** The stiffness of a beam element with [EI = 1] and [l = 2], second row
    and column. *)
Lemma beam_stiffness_force_balance_witness :
  nth (1 * 4 + 2)
      [ 1.5; 1.5; -1.5; 1.5; 1.5; 2; -1.5; 1;
        -1.5; -1.5; 1.5; -1.5; 1.5; 1; -1.5; 2 ]%float 0%float =
  (- nth (1 * 4)
       [ 1.5; 1.5; -1.5; 1.5; 1.5; 2; -1.5; 1;
         -1.5; -1.5; 1.5; -1.5; 1.5; 1; -1.5; 2 ] 0)%float /\
  nth (2 * 4 + 1)
      [ 1.5; 1.5; -1.5; 1.5; 1.5; 2; -1.5; 1;
        -1.5; -1.5; 1.5; -1.5; 1.5; 1; -1.5; 2 ]%float 0%float =
  (- nth 1
       [ 1.5; 1.5; -1.5; 1.5; 1.5; 2; -1.5; 1;
         -1.5; -1.5; 1.5; -1.5; 1.5; 1; -1.5; 2 ] 0)%float.
Proof.
  apply (beam_stiffness_force_balance 0%float 0%float 2%float 1%float);
    [reflexivity | lia].
Defined.

(** ** Connectivity given by the DOF index *)

(** The beam table as [get_dof_index_beam_fits] computes it, for an element
    index in the range of the cells. *)
Lemma get_dof_index_beam_in_range (e : Z) :
  - 2 ^ 62 <= e <= 2 ^ 62 - 2 ->
  get_dof_index EB_beam e =
  Ok (DofTable
        [ map (Z.add (e * 2)) [0; 0; 0; 0; 1; 1; 1; 1; 2; 2; 2; 2; 3; 3; 3; 3];
          map (Z.add (e * 2)) [0; 1; 2; 3; 0; 1; 2; 3; 0; 1; 2; 3; 0; 1; 2; 3] ]).
Proof.
  intros He. apply get_dof_index_beam_fits; apply fits_long_spec; lia.
Qed.

(** X6.  Neighbouring elements share their end node.  Under ['Elasticity']
    the second DOF of element [e] is the first DOF of element [e+1], and the
    DOFs increase.  Under ['EB_beam'] the local DOFs 2 and 3 of element [e]
    are the local DOFs 0 and 1 of element [e+1]: rows [ii+2] of the row-index
    grid of [e] equal rows [ii] of that of [e+1], and likewise the columns of
    the column-index grid. *)
Theorem dof_index_shared_node :
  (forall e : Z,
      exists a b c : Z,
        get_dof_index Elasticity e = Ok (DofList [a; b]) /\
        get_dof_index Elasticity (e + 1) = Ok (DofList [b; c]) /\
        a < b < c) /\
  (forall e : Z,
      - 2 ^ 62 <= e <= 2 ^ 62 - 3 ->
      exists r0 r1 s0 s1 : list Z,
        get_dof_index EB_beam e = Ok (DofTable [r0; r1]) /\
        get_dof_index EB_beam (e + 1) = Ok (DofTable [s0; s1]) /\
        forall ii jj : nat,
          (ii < 2)%nat -> (jj < 4)%nat ->
          nth ((ii + 2) * 4 + jj) r0 0 = nth (ii * 4 + jj) s0 0 /\
          nth (jj * 4 + (ii + 2)) r1 0 = nth (jj * 4 + ii) s1 0).
Proof.
  split.
  - intros e. exists e, (e + 1), (e + 1 + 1).
    repeat split; lia.
  - intros e He.
    eexists. eexists. eexists. eexists.
    split; [apply get_dof_index_beam_in_range; lia |].
    split; [apply get_dof_index_beam_in_range; lia |].
    intros ii jj Hii Hjj.
    destruct ii as [| [| ii]]; try lia;
      destruct jj as [| [| [| [| jj]]]]; try lia;
      cbn [nth map Nat.add Nat.mul]; split; lia.
Qed.

(** Elements 0 and 1 of a beam mesh. *)
Lemma dof_index_shared_node_witness :
  exists r0 r1 s0 s1 : list Z,
    get_dof_index EB_beam 0 = Ok (DofTable [r0; r1]) /\
    get_dof_index EB_beam (0 + 1) = Ok (DofTable [s0; s1]) /\
    forall ii jj : nat,
      (ii < 2)%nat -> (jj < 4)%nat ->
      nth ((ii + 2) * 4 + jj) r0 0 = nth (ii * 4 + jj) s0 0 /\
      nth (jj * 4 + (ii + 2)) r1 0 = nth (jj * 4 + ii) s1 0.
Proof.
  destruct dof_index_shared_node as (_ & Hbeam).
  apply (Hbeam 0). lia.
Defined.

(** X7.  Under ['EB_beam'], for an element index in the range of the cells,
    every entry of the table is one of the element's four global DOFs
    [2e .. 2e+3], and the 16 (row, column) pairs are pairwise distinct: no two
    positions of the flattened stiffness are sent to the same place. *)
Theorem dof_index_pairs_distinct (e : Z) :
  - 2 ^ 62 <= e <= 2 ^ 62 - 2 ->
  exists r0 r1 : list Z,
    get_dof_index EB_beam e = Ok (DofTable [r0; r1]) /\
    Forall (fun g => 2 * e <= g <= 2 * e + 3) (r0 ++ r1) /\
    NoDup (combine r0 r1).
Proof.
  intros He. eexists. eexists.
  split; [apply get_dof_index_beam_in_range; exact He |].
  split.
  - cbn [map app]. repeat constructor; lia.
  - cbn [map combine].
    repeat (constructor;
            [ cbn [In]; intros K;
              repeat (destruct K as [K | K];
                      [injection K; intros; lia |]);
              exact K
            | ]).
    constructor.
Qed.

(** Element 5 of a beam mesh. *)
Lemma dof_index_pairs_distinct_witness :
  exists r0 r1 : list Z,
    get_dof_index EB_beam 5 = Ok (DofTable [r0; r1]) /\
    Forall (fun g => 2 * 5 <= g <= 2 * 5 + 3) (r0 ++ r1) /\
    NoDup (combine r0 r1).
Proof.
  apply (dof_index_pairs_distinct 5). lia.
Defined.

(** X8.  The table of [get_dof_index] and the sequence of [get_Ke] fit
    together under ['EB_beam']: both have 16 positions, so every stiffness
    entry has a (row, column) pair, and the transposed position [jj*4+ii]
    carries the exchanged pair and the same stiffness value as [ii*4+jj].
    Scattering the element into a global matrix therefore adds equal values
    at [(r, c)] and [(c, r)].  This holds in every arithmetic. *)
Theorem dof_scatter_symmetric
    (T : Type) `{Scalar T} (e : Z) (Ae Ee le EIe : T) (r : ndarray T) :
  - 2 ^ 62 <= e <= 2 ^ 62 - 2 ->
  get_Ke EB_beam Ae Ee le EIe = Ok r ->
  exists (v : list T) (r0 r1 : list Z),
    r = Arr1 v /\
    get_dof_index EB_beam e = Ok (DofTable [r0; r1]) /\
    List.length v = List.length r0 /\ List.length v = List.length r1 /\
    forall ii jj : nat,
      (ii < 4)%nat -> (jj < 4)%nat ->
      nth (jj * 4 + ii) r0 0 = nth (ii * 4 + jj) r1 0 /\
      nth (jj * 4 + ii) r1 0 = nth (ii * 4 + jj) r0 0 /\
      nth_error v (jj * 4 + ii) = nth_error v (ii * 4 + jj).
Proof.
  intros He E.
  apply get_Ke_beam_inv in E as (c & k & s & _ & _ & _ & ->).
  eexists. eexists. eexists.
  split; [reflexivity |].
  split; [apply get_dof_index_beam_in_range; exact He |].
  split; [reflexivity |]. split; [reflexivity |].
  intros ii jj Hii Hjj.
  destruct ii as [| [| [| [| ii]]]]; try lia;
    destruct jj as [| [| [| [| jj]]]]; try lia;
    repeat split; reflexivity.
Qed.

(** Element 3 of a beam mesh with [EI = 1] and [l = 2], in doubles. *)
Lemma dof_scatter_symmetric_witness :
  exists (v : list float) (r0 r1 : list Z),
    Arr1 [ 1.5; 1.5; -1.5; 1.5; 1.5; 2; -1.5; 1;
           -1.5; -1.5; 1.5; -1.5; 1.5; 1; -1.5; 2 ]%float = Arr1 v /\
    get_dof_index EB_beam 3 = Ok (DofTable [r0; r1]) /\
    List.length v = List.length r0 /\ List.length v = List.length r1 /\
    forall ii jj : nat,
      (ii < 4)%nat -> (jj < 4)%nat ->
      nth (jj * 4 + ii) r0 0 = nth (ii * 4 + jj) r1 0 /\
      nth (jj * 4 + ii) r1 0 = nth (ii * 4 + jj) r0 0 /\
      nth_error v (jj * 4 + ii) = nth_error v (ii * 4 + jj).
Proof.
  apply (dof_scatter_symmetric float 3 0%float 0%float 2%float 1%float);
    [lia | reflexivity].
Defined.

(** X9.  The two loop nests of [get_dof_index] stay inside the table: the
    call never ends with [IndexError].  Whatever the tag and the element
    index, it returns or ends with [InvalidElementType] (tag) or
    [OverflowError] (a DOF number beyond the cells). *)
Theorem dof_index_errors (self : FiniteElement) (e : Z) (err : error) :
  get_dof_index self e = Err err ->
  err = InvalidElementType \/ err = OverflowError.
Proof.
  intros E. rewrite (kernel_of_tag self) in E.
  unfold get_dof_index in E. cbn [init problem_type] in E.
  destruct (String.eqb_spec (problem_type self) "Elasticity") as [T1 | T1];
    [discriminate E |].
  destruct (String.eqb_spec (problem_type self) "EB_beam") as [T2 | T2];
    [| left; congruence].
  right.
  change (get_dof_index EB_beam e = Err err) in E.
  destruct (fits_long (e * 2 + 0) && fits_long (e * 2 + 1) &&
            fits_long (e * 2 + 2) && fits_long (e * 2 + 3)) eqn:F.
  - apply andb_true_iff in F as [F F3]. apply andb_true_iff in F as [F F2].
    apply andb_true_iff in F as [F0 F1].
    rewrite (get_dof_index_beam_fits e F0 F1 F2 F3) in E. discriminate E.
  - rewrite (get_dof_index_beam_overflow e F) in E. congruence.
Qed.

(** Element [2^62] of a beam mesh, and a tag of neither family. *)
Lemma dof_index_errors_witness :
  (OverflowError = InvalidElementType \/ OverflowError = OverflowError) /\
  (InvalidElementType = InvalidElementType \/
   InvalidElementType = OverflowError).
Proof.
  split.
  - apply (dof_index_errors EB_beam (2 ^ 62)). reflexivity.
  - apply (dof_index_errors (init (Some "Timoshenko"%string)) 0). reflexivity.
Defined.

(** ** The node subscript of the dynamic load *)

Lemma getitem_out_of_range {A : Type} (xs : list A) (i : Z) :
  ~ (- Z.of_nat (List.length xs) <= i < Z.of_nat (List.length xs)) ->
  getitem xs i = Err IndexError.
Proof.
  intros Hi. unfold getitem, index.
  set (n := Z.of_nat (List.length xs)) in *.
  destruct (Z.ltb_spec i 0) as [Hneg | Hpos].
  - replace ((0 <=? i + n) && (i + n <? n)) with false; [reflexivity |].
    symmetry. apply andb_false_iff.
    destruct (Z.leb_spec 0 (i + n)); [lia | left; reflexivity].
  - replace ((0 <=? i) && (i <? n)) with false; [reflexivity |].
    symmetry. apply andb_false_iff. right. apply Z.ltb_ge. lia.
Qed.

Lemma getitem_from_end {A : Type} (xs : list A) (i : Z) :
  0 <= i < Z.of_nat (List.length xs) ->
  getitem xs (i - Z.of_nat (List.length xs)) = getitem xs i.
Proof.
  intros Hi. unfold getitem, index.
  set (n := Z.of_nat (List.length xs)) in *.
  replace (i - n <? 0) with true by (symmetry; apply Z.ltb_lt; lia).
  replace (i <? 0) with false by (symmetry; apply Z.ltb_ge; lia).
  replace (i - n + n) with i by lia. reflexivity.
Qed.

(** X10.  Under ['EB_beam'] the dynamic load reads [fe[node]] as Python
    does.  A node outside [-len(fe), len(fe))] ends the call with
    [IndexError], whatever the length [le]; a node counted from the end,
    [node - len(fe)], gives the same result as [node]; and in doubles the call
    returns exactly when the node is inside that range. *)
Theorem dynamic_load_subscript :
  (forall (T : Type) `{Scalar T} (le b1 b2 : T) (fe : list T) (node : Z),
      ~ (- Z.of_nat (List.length fe) <= node < Z.of_nat (List.length fe)) ->
      get_dynamic_fe_omega EB_beam le b1 b2 fe node = Err IndexError) /\
  (forall (T : Type) `{Scalar T} (le b1 b2 : T) (fe : list T) (node : Z),
      0 <= node < Z.of_nat (List.length fe) ->
      get_dynamic_fe_omega EB_beam le b1 b2 fe
        (node - Z.of_nat (List.length fe)) =
      get_dynamic_fe_omega EB_beam le b1 b2 fe node) /\
  (forall (le b1 b2 : float) (fe : list float) (node : Z),
      (exists r, get_dynamic_fe_omega EB_beam le b1 b2 fe node = Ok r) <->
      - Z.of_nat (List.length fe) <= node < Z.of_nat (List.length fe)).
Proof.
  repeat apply conj.
  - intros T HT le b1 b2 fe node Hnode. unfold get_dynamic_fe_omega.
    cbn [EB_beam init problem_type].
    change ("EB_beam" =? "EB_beam")%string with true. cbv iota.
    rewrite (getitem_out_of_range fe node Hnode). reflexivity.
  - intros T HT le b1 b2 fe node Hnode. unfold get_dynamic_fe_omega.
    cbn [EB_beam init problem_type].
    change ("EB_beam" =? "EB_beam")%string with true. cbv iota.
    rewrite (getitem_from_end fe node Hnode). reflexivity.
  - intros le b1 b2 fe node. split.
    + intros [r E].
      destruct (Z_le_dec (- Z.of_nat (List.length fe)) node) as [L | L];
        [destruct (Z_lt_dec node (Z.of_nat (List.length fe))) as [U | U] |];
        [lia | exfalso | exfalso].
      all: unfold get_dynamic_fe_omega in E;
        cbn [EB_beam init problem_type] in E;
        change ("EB_beam" =? "EB_beam")%string with true in E; cbv iota in E;
        rewrite (getitem_out_of_range fe node) in E by lia; discriminate E.
    + intros Hnode.
      destruct (getitem_in_range fe node Hnode) as [f Hf].
      eexists. unfold get_dynamic_fe_omega.
      cbn [EB_beam init problem_type].
      change ("EB_beam" =? "EB_beam")%string with true. cbv iota.
      rewrite Hf. reflexivity.
Qed.

(** Three nodal loads: node 3 is outside, node [-1] is node 2. *)
Lemma dynamic_load_subscript_witness :
  get_dynamic_fe_omega EB_beam 2%float 0%float 0%float [1; 3; 5]%float 3 =
  Err IndexError /\
  get_dynamic_fe_omega EB_beam 2%float 0%float 0%float [1; 3; 5]%float
    (2 - Z.of_nat (List.length [1; 3; 5]%float)) =
  get_dynamic_fe_omega EB_beam 2%float 0%float 0%float [1; 3; 5]%float 2.
Proof.
  destruct dynamic_load_subscript as (Hout & Hend & _).
  split.
  - apply (Hout float _ 2%float 0%float 0%float [1; 3; 5]%float 3).
    cbn. lia.
  - apply (Hend float _ 2%float 0%float 0%float [1; 3; 5]%float 2).
    cbn. lia.
Defined.

(** ** Where the Gauss-point mapping lands *)

From Stdlib Require Import Lqa.

(** X11.  In exact arithmetic and for [a <= b], the interpolation maps the
    reference interval into the physical one, a point [x] with
    [-1 <= x <= 1] to a point of [[a, b]], it keeps the order of the points,
    and it maps the centre [x = 0] to the midpoint [(a+b)/2]. *)
Theorem gauss_point_inside (self : FiniteElement) (a b : Q) :
  (a <= b)%Q ->
  (forall x : Q,
      (- (1) <= x)%Q -> (x <= 1)%Q ->
      (a <= get_gauss_quadrature_index self x a b)%Q /\
      (get_gauss_quadrature_index self x a b <= b)%Q) /\
  (forall x y : Q,
      (x <= y)%Q ->
      (get_gauss_quadrature_index self x a b <=
       get_gauss_quadrature_index self y a b)%Q) /\
  (get_gauss_quadrature_index self 0 a b == (a + b) / 2)%Q.
Proof.
  intros Hab. unfold get_gauss_quadrature_index. cbn.
  repeat apply conj.
  - intros x Hlo Hhi. split; nra.
  - intros x y Hxy. nra.
  - field.
Qed.

(** The two-point Gauss abscissa [-1/2] on the element [[2, 6]]. *)
Lemma gauss_point_inside_witness :
  (2 <= get_gauss_quadrature_index Elasticity (- (1 # 2)) 2 6)%Q /\
  (get_gauss_quadrature_index Elasticity (- (1 # 2)) 2 6 <= 6)%Q.
Proof.
  destruct (gauss_point_inside Elasticity 2 6) as (Hin & _);
    [discriminate |].
  apply Hin; discriminate.
Defined.

(** ** The shape of the displacement array *)

(** X12.  Under ['Elasticity'] the strain needs a displacement array of
    exactly two entries: once the division [1/l] has gone through, a 1-D
    array of any other length ends the call with [ValueError] (the shapes of
    the dot product do not agree), in every arithmetic; in doubles, for every
    non-zero [l]. *)
Theorem strain_shape_error :
  (forall (T : Type) `{Scalar T} (le h : T) (de : list T),
      truediv (lit 1) le = Ok h ->
      List.length de <> 2%nat ->
      get_strain_e Elasticity le de = Err ValueError) /\
  (forall (le : float) (de : list float),
      (le =? 0)%float = false ->
      List.length de <> 2%nat ->
      get_strain_e Elasticity le de = Err ValueError).
Proof.
  assert (forall (T : Type) `{Scalar T} (le h : T) (de : list T),
             truediv (lit 1) le = Ok h ->
             List.length de <> 2%nat ->
             get_strain_e Elasticity le de = Err ValueError) as G.
  { intros T HT le h de Hh Hlen. unfold get_strain_e.
    cbn [Elasticity init problem_type].
    change ("Elasticity" =? "Elasticity")%string with true. cbv iota.
    rewrite Hh. cbn [bind]. unfold dot. cbn [List.length].
    apply Nat.eqb_neq in Hlen. rewrite Nat.eqb_sym, Hlen. reflexivity. }
  split; [exact G |].
  intros le de Hle Hlen.
  apply (G float _ le (1 / le)%float de); [| exact Hlen].
  apply (float_truediv_nonzero _ _ Hle).
Qed.

(** A bar of length 2 given three displacements, and given none. *)
Lemma strain_shape_error_witness :
  get_strain_e Elasticity 2%float [1; 3; 5]%float = Err ValueError /\
  get_strain_e Elasticity 2%float [] = Err ValueError.
Proof.
  destruct strain_shape_error as (_ & Hfloat).
  split; apply Hfloat; try reflexivity; cbn; lia.
Defined.

(** ** Strain energy of the bar *)

(** X13.  Under ['Elasticity'], in exact arithmetic and for [l <> 0], the
    quadratic form of the stiffness matrix on a displacement pair is the
    strain energy density integrated over the element,
    [d . K d = A*E*l*strain^2], with the strain of [get_strain_e]; for
    [A*E >= 0] and [l > 0] it is never negative. *)
Theorem bar_energy (Ae Ee le EIe d1 d2 : Q) :
  ~ le == 0 ->
  exists (m : list (list Q)) (eps w : Q),
    get_Ke Elasticity Ae Ee le EIe = Ok (Arr2 m) /\
    get_strain_e Elasticity le [d1; d2] = Ok eps /\
    matmul [[d1; d2]] (matmul m [[d1]; [d2]]) = [[w]] /\
    (w == Ae * Ee * le * (eps * eps))%Q /\
    ((0 <= Ae * Ee)%Q -> (0 < le)%Q -> (0 <= w)%Q).
Proof.
  intros Hle.
  eexists. eexists. eexists. split.
  - unfold get_Ke. cbn [Elasticity init problem_type].
    change ("Elasticity" =? "Elasticity")%string with true. cbv iota.
    rewrite (exact_truediv_nonzero _ _ Hle). reflexivity.
  - split.
    + unfold get_strain_e. cbn [Elasticity init problem_type].
      change ("Elasticity" =? "Elasticity")%string with true. cbv iota.
      rewrite (exact_truediv_nonzero _ _ Hle). reflexivity.
    + split; [reflexivity |].
      assert (forall w : Q,
                 (w == Ae * Ee * le * ((1 / le * (0 + -1 * d1 + 1 * d2)) *
                                       (1 / le * (0 + -1 * d1 + 1 * d2))))%Q ->
                 (0 <= Ae * Ee)%Q -> (0 < le)%Q -> (0 <= w)%Q) as Hpos.
      { intros w Hw HAE Hl. rewrite Hw.
        apply Qmult_le_0_compat;
          [apply Qmult_le_0_compat; [exact HAE | apply Qlt_le_weak; exact Hl] |].
        set (t := (1 / le * (0 + -1 * d1 + 1 * d2))%Q). nra. }
      match goal with
      | |- (?w == _)%Q /\ _ =>
          assert (w == Ae * Ee * le *
                       ((1 / le * (0 + -1 * d1 + 1 * d2)) *
                        (1 / le * (0 + -1 * d1 + 1 * d2))))%Q as Hw
            by (cbn; field; exact Hle)
      end.
      split; [exact Hw | apply Hpos; exact Hw].
Qed.

(** A bar of length 2 with [A = 2], [E = 3], pulled from 1 to 3. *)
Lemma bar_energy_witness :
  exists (m : list (list Q)) (eps w : Q),
    get_Ke Elasticity 2%Q 3%Q 2%Q 0%Q = Ok (Arr2 m) /\
    get_strain_e Elasticity 2%Q [1; 3]%Q = Ok eps /\
    matmul [[1; 3]]%Q (matmul m [[1]; [3]]%Q) = [[w]] /\
    (w == 2 * 3 * 2 * (eps * eps))%Q /\
    ((0 <= 2 * 3)%Q -> (0 < 2)%Q -> (0 <= w)%Q).
Proof.
  apply (bar_energy 2 3 2 0 1 3)%Q. discriminate.
Defined.
